(** * webfunny_dejs: a shallow embedding of [de.js]

    [de.js] is a static deobfuscator for JavaScript.  It normalises the
    reversed-string idiom on the source text, extracts the calls to
    "helper" functions whose arguments are all constants, evaluates them in
    a [vm] context, substitutes the captured values for the calls in the
    syntax tree, and optionally deletes the helpers that became dead.

    The first part is the embedding, in the order of the source file:
    configuration, the textual normaliser, the syntax tree and its
    traversal, the call-site extractor, the rewriter, the evaluation
    harness, the cleanup analyzer, the phases on source text and the
    pipeline [processWithNewStrategy].  The parser, the printer and the
    interpreter are external to [de.js] and are parameters of the
    embedding; reference instances of them and the inputs of the
    scenarios close the first part.  The second part states and proves
    the properties. *)

From Stdlib Require Import ZArith QArith List String Ascii Bool Lia DecimalString.
From Equations Require Import Equations.
From Equations.Prop Require Import Logic.
From stdpp Require Import base option list countable gmap.
Import ListNotations.

Local Open Scope list_scope.

(* ===================================================================== *)
(** ** JavaScript strings *)
(* ===================================================================== *)

(** A JavaScript string is a sequence of UTF-16 code units.  Regular
    expressions without the [u] flag, [split('')], [reverse] and [join]
    all work code unit by code unit, so this is the granularity of the
    model. *)
Definition code_unit := N.
Definition jsstr := list code_unit.

(** ASCII text of the development, as code units. *)
Fixpoint js (s : string) : jsstr :=
  match s with
  | EmptyString => []
  | String c s' => N_of_ascii c :: js s'
  end.

Definition dquote : code_unit := 34%N.
Definition backslash : code_unit := 92%N.

Definition jsstr_eqb (a b : jsstr) : bool := bool_decide (a = b).

(** [s.startsWith(p)], returning what follows the prefix. *)
Fixpoint strip_prefix (p s : jsstr) : option jsstr :=
  match p, s with
  | [], _ => Some s
  | c :: p', d :: s' => if N.eqb c d then strip_prefix p' s' else None
  | _ :: _, [] => None
  end.

(** [s.includes(c)] for a single code unit. *)
Definition includes_unit (c : code_unit) (s : jsstr) : bool :=
  existsb (N.eqb c) s.

(** [s.startsWith(p)]. *)
Definition starts_with (p s : jsstr) : bool :=
  match strip_prefix p s with Some _ => true | None => false end.

(** [s.includes(p)]. *)
Fixpoint includes (p s : jsstr) : bool :=
  starts_with p s
  || match s with
     | [] => false
     | _ :: s' => includes p s'
     end.

(** [s.indexOf(c)] for a single code unit; [None] is [-1]. *)
Fixpoint index_of_unit (c : code_unit) (s : jsstr) : option nat :=
  match s with
  | [] => None
  | d :: s' => if N.eqb c d then Some O
               else option_map S (index_of_unit c s')
  end.

(** [s.replace(/c/g, rep)] for a pattern that is one code unit. *)
Definition replace_unit (c : code_unit) (rep : jsstr) (s : jsstr) : jsstr :=
  flat_map (fun d => if N.eqb c d then rep else [d]) s.

(** [s.replace(/ab/g, rep)] for a pattern that is two code units: matches
    are taken from left to right and do not overlap. *)
Fixpoint replace_pair (a b : code_unit) (rep : jsstr) (s : jsstr) : jsstr :=
  match s with
  | [] => []
  | x :: tl =>
      match tl with
      | y :: rest =>
          if N.eqb x a && N.eqb y b then rep ++ replace_pair a b rep rest
          else x :: replace_pair a b rep tl
      | [] => [x]
      end
  end.

(** The line terminators: line feed, carriage return, line separator and
    paragraph separator.  Each of them ends a line comment; a string
    literal may contain neither of the first two. *)
Definition isLineTerminator (c : code_unit) : bool :=
  N.eqb c 10 || N.eqb c 13 || N.eqb c 8232 || N.eqb c 8233.

Definition isLineBreak (c : code_unit) : bool :=
  N.eqb c 10 || N.eqb c 13.

(** [Buffer.from(s)]: the UTF-8 bytes of a string.  A surrogate pair is
    one code point; a lone surrogate is encoded as U+FFFD. *)
Definition utf8_of_code_point (c : N) : list N :=
  if (c <? 128)%N then [c]
  else if (c <? 2048)%N then
    [N.lor 192 (N.shiftr c 6); N.lor 128 (N.land c 63)]
  else if (c <? 65536)%N then
    [N.lor 224 (N.shiftr c 12); N.lor 128 (N.land (N.shiftr c 6) 63);
     N.lor 128 (N.land c 63)]
  else
    [N.lor 240 (N.shiftr c 18); N.lor 128 (N.land (N.shiftr c 12) 63);
     N.lor 128 (N.land (N.shiftr c 6) 63); N.lor 128 (N.land c 63)].

Definition isHighSurrogate (c : N) : bool := (55296 <=? c)%N && (c <=? 56319)%N.
Definition isLowSurrogate (c : N) : bool := (56320 <=? c)%N && (c <=? 57343)%N.

Fixpoint utf8 (s : jsstr) : list N :=
  match s with
  | [] => []
  | c :: tl =>
      if isHighSurrogate c then
        match tl with
        | d :: rest =>
            if isLowSurrogate d then
              utf8_of_code_point
                (65536 + N.shiftl (c - 55296) 10 + (d - 56320))%N
                ++ utf8 rest
            else utf8_of_code_point 65533 ++ utf8 tl
        | [] => utf8_of_code_point 65533
        end
      else if isLowSurrogate c then utf8_of_code_point 65533 ++ utf8 tl
      else utf8_of_code_point c ++ utf8 tl
  end.

(** [buffer.toString('base64')]. *)
Definition base64_alphabet : jsstr :=
  js "ABCDEFGHIJKLMNOPQRSTUVWXYZabcdefghijklmnopqrstuvwxyz0123456789+/".

Definition base64_digit (n : N) : code_unit :=
  nth (N.to_nat n) base64_alphabet 0%N.

Fixpoint base64 (bytes : list N) : jsstr :=
  match bytes with
  | [] => []
  | a :: tl =>
      match tl with
      | [] =>
          [base64_digit (N.shiftr a 2);
           base64_digit (N.shiftl (N.land a 3) 4); 61%N; 61%N]
      | b :: tl' =>
          match tl' with
          | [] =>
              [base64_digit (N.shiftr a 2);
               base64_digit (N.lor (N.shiftl (N.land a 3) 4) (N.shiftr b 4));
               base64_digit (N.shiftl (N.land b 15) 2); 61%N]
          | c :: rest =>
              [base64_digit (N.shiftr a 2);
               base64_digit (N.lor (N.shiftl (N.land a 3) 4) (N.shiftr b 4));
               base64_digit (N.lor (N.shiftl (N.land b 15) 2) (N.shiftr c 6));
               base64_digit (N.land c 63)] ++ base64 rest
          end
      end
  end.

(* ===================================================================== *)
(** ** Values, errors and configuration *)
(* ===================================================================== *)

(** The JavaScript values the tool handles: the constants it captures from
    argument positions and the results it reads back from the interpreter.
    [VObject] stands for every value whose [typeof] is neither string,
    number nor boolean and which is neither [null] nor [undefined]
    (objects, arrays, functions, symbols). *)
Inductive jsvalue :=
| VString (s : jsstr)
| VNumber (q : Q)
| VBoolean (b : bool)
| VNull
| VUndefined
| VObject.

(** [v !== undefined]. *)
Definition is_defined (v : jsvalue) : bool :=
  match v with VUndefined => false | _ => true end.

(** Exceptions, by the constructor that raised them. *)
Inductive jserror :=
| SyntaxError (msg : jsstr)
| ReferenceError (name : jsstr)
| TypeError (msg : jsstr)
| Error (msg : jsstr).

(** A computation that either throws or returns. *)
Definition result (A : Type) : Type := jserror + A.
Definition Ok {A} (a : A) : result A := inr a.
Definition Throw {A} (e : jserror) : result A := inl e.

Definition bind_result {A B} (m : result A) (k : A -> result B) : result B :=
  match m with
  | inl e => inl e
  | inr a => k a
  end.

(** [try { body } catch (error) { handler }] around an expression. *)
Definition try_catch {A} (body : result A) (handler : jserror -> A) : A :=
  match body with
  | inr a => a
  | inl e => handler e
  end.

(** [--cleanup-functions]: one of [none], [comment], [remove]. *)
Inductive cleanup_mode := CleanupNone | CleanupComment | CleanupRemove.

(** The [config] object (de.js 97-110).  A [RegExp] is used through its
    [test] method only, so it is a predicate on strings. *)
Record config := {
  decryptStringReverse : bool;
  decryptFunctionCalls : bool;
  verbose : bool;
  debug : bool;
  traceLines : bool;
  outputDebug : option jsstr;
  disableReplace : bool;
  cleanupFunctions : cleanup_mode;
  interceptPattern : jsstr -> bool;
  functionNamePattern : option (jsstr -> bool);
  minArgs : Z;
  maxArgs : Z
}.

(** The message of de.js 128-130: the only place that reads [minArgs] and
    [maxArgs] apart from the banner of [main]. *)
Definition relaxedLimitNotice (cfg : config) (argsCount : nat) : bool :=
  verbose cfg
  && ((Z.of_nat argsCount <? minArgs cfg)%Z
      || (maxArgs cfg <? Z.of_nat argsCount)%Z).

(** [shouldInterceptFunction] (de.js 115-133). *)
Definition shouldInterceptFunction
    (cfg : config) (funcName : jsstr) (argsCount : nat) : bool :=
  match functionNamePattern cfg with
  | Some pattern => if negb (pattern funcName) then false
                    else if negb (interceptPattern cfg funcName) then false
                    else true
  | None => if negb (interceptPattern cfg funcName) then false else true
  end.

(* ===================================================================== *)
(** ** The literal normaliser ([processStringReverse], de.js 138-161) *)
(* ===================================================================== *)

Module Normalizer.

(** The pattern is a double-quoted run of characters other than the
    double quote, followed by the literal text [idiom_tail]: a call of
    [split] on the empty string, of [reverse], and of [join] on the empty
    string.  It carries the [g] flag. *)
Definition idiom_tail : jsstr :=
  js ".split(" ++ [dquote; dquote] ++ js ").reverse().join("
     ++ [dquote; dquote] ++ js ")".

(** The longest run of code units other than the double quote, and the
    rest: the greedy starred character class of the pattern. *)
Fixpoint span_unquoted (s : jsstr) : jsstr * jsstr :=
  match s with
  | [] => ([], [])
  | c :: s' =>
      if N.eqb c dquote then ([], s)
      else let '(run, rest) := span_unquoted s' in (c :: run, rest)
  end.

(** One attempt of the pattern at the head of [s]: the captured group and
    the text after the match.  After the opening quote the group must stop
    at the next quote (it cannot contain one, and a quote has to follow
    it), so there is nothing to backtrack over. *)
Definition match_here (s : jsstr) : option (jsstr * jsstr) :=
  match s with
  | [] => None
  | c :: s' =>
      if N.eqb c dquote then
        match span_unquoted s' with
        | (group, q :: after_quote) =>
            match strip_prefix idiom_tail after_quote with
            | Some rest => Some (group, rest)
            | None => None
            end
        | (_, []) => None
        end
      else None
  end.

(** The replacement callback: [originalString.split('').reverse().join('')]
    between two double quotes. *)
Definition replacement (originalString : jsstr) : jsstr :=
  dquote :: rev originalString ++ [dquote].

Lemma span_unquoted_length s :
  length (snd (span_unquoted s)) <= length s.
Proof.
  induction s as [|c s IH]; simpl; [lia|].
  destruct (N.eqb c dquote); simpl; [lia|].
  destruct (span_unquoted s); simpl in *; lia.
Qed.

Lemma strip_prefix_length p s r :
  strip_prefix p s = Some r -> length s = length p + length r.
Proof.
  revert s; induction p as [|c p IH]; intros [|d s]; simpl; try congruence.
  - intros [= <-]; reflexivity.
  - intros [= <-]; reflexivity.
  - destruct (N.eqb c d); [|congruence]. intros H. rewrite (IH _ H). lia.
Qed.

Lemma match_here_shorter s group rest :
  match_here s = Some (group, rest) -> length rest < length s.
Proof.
  unfold match_here. destruct s as [|c s]; [congruence|].
  destruct (N.eqb c dquote); [|congruence].
  pose proof (span_unquoted_length s) as Hlen.
  destruct (span_unquoted s) as [g [|q after]]; [congruence|].
  destruct (strip_prefix idiom_tail after) as [r|] eqn:Hp; [|congruence].
  intros [= _ <-]. apply strip_prefix_length in Hp.
  cbn [snd length] in *. lia.
Qed.

(** [code.replace(pattern, callback)] with a global pattern: the matches
    are found from left to right in the original text, each search starting
    where the previous match ended; text between matches is copied. *)
Equations? processStringReverse (code : jsstr) : jsstr
  by wf (length code) lt :=
  processStringReverse [] := [];
  processStringReverse (c :: s) with inspect (match_here (c :: s)) := {
    | exist _ (Some (group, rest)) Hm := replacement group ++ processStringReverse rest;
    | exist _ None _ := c :: processStringReverse s }.
Proof.
  - apply match_here_shorter in Hm. cbn [length] in *. lia.
  - cbn [length]. lia.
Qed.

(** Some position of the text starts an occurrence of the idiom. *)
Fixpoint has_idiom (s : jsstr) : bool :=
  match match_here s with
  | Some _ => true
  | None => match s with
            | [] => false
            | _ :: s' => has_idiom s'
            end
  end.

(** What a pass may do to a text: copy a code unit where no occurrence
    starts, or put the replacement for an occurrence. *)
Inductive rewrites_to : jsstr -> jsstr -> Prop :=
| rewrites_nil : rewrites_to [] []
| rewrites_copy c s t :
    match_here (c :: s) = None -> rewrites_to s t ->
    rewrites_to (c :: s) (c :: t)
| rewrites_idiom group rest t :
    Forall (fun c => c <> dquote) group -> rewrites_to rest t ->
    rewrites_to (dquote :: group ++ dquote :: idiom_tail ++ rest)
                (replacement group ++ t).

End Normalizer.

(* ===================================================================== *)
(** ** The syntax tree *)
(* ===================================================================== *)

(** The node types of the Babel tree that the tool distinguishes, with the
    fields it reads.  A literal keeps the text it was parsed from
    ([extra.raw]); a node built by [t.stringLiteral] or [t.numericLiteral]
    has none.  A function's [id] is absent for an anonymous function
    ([export default function () {}]). *)
#[warnings="-register-all"]
Inductive expr :=
| Identifier (name : jsstr)
| StringLiteral (value : jsstr) (raw : option jsstr)
| NumericLiteral (value : Q) (raw : option jsstr)
| BooleanLiteral (value : bool)
| NullLiteral
| UnaryExpression (operator : jsstr) (argument : expr)
| BinaryExpression (operator : jsstr) (left right : expr)
| AssignmentExpression (operator : jsstr) (left right : expr)
| MemberExpression (object property : expr) (computed : bool)
| CallExpression (callee : expr) (arguments : list expr)
| FunctionExpression (id : option jsstr) (params : list jsstr)
                     (body : list stmt)
| ObjectExpression (properties : list property)
| ArrayExpression (elements : list (option expr))
with property :=
| ObjectProperty (key value : expr)
with declarator :=
| VariableDeclarator (id : jsstr) (init : option expr)
with stmt :=
| ExpressionStatement (expression : expr)
| VariableDeclaration (kind : jsstr) (declarations : list declarator)
| FunctionDeclaration (id : option jsstr) (params : list jsstr)
                      (body : list stmt)
| ReturnStatement (argument : option expr)
| BlockStatement (body : list stmt)
| IfStatement (test : expr) (consequent : stmt) (alternate : option stmt)
| WhileStatement (test : expr) (body : stmt)
| DoWhileStatement (body : stmt) (test : expr)
| TryStatement (block : list stmt) (handler : option (list stmt))
               (finalizer : option (list stmt))
| ExportNamedDeclaration (declaration : stmt)
| ExportDefaultDeclaration (declaration : stmt)
| ExportDefaultExpression (declaration : expr).

(** [Program.body]. *)
Definition program := list stmt.

(** Any node, as a traversal meets it. *)
Inductive node :=
| NExpr (e : expr)
| NProp (p : property)
| NDecl (d : declarator)
| NStmt (s : stmt)
| NProgram (body : program).

(** A [NodePath]: the node and the chain of [parentPath]s, nearest first.
    The wrapper nodes Babel puts in between (the [BlockStatement] of a
    function body, a [CatchClause], the [File]) carry no information the
    tool reads and are not listed. *)
Record NodePath := mkPath { path_node : node; path_parents : list node }.

(** [path.get(child)]. *)
Definition path_get (p : NodePath) (child : node) : NodePath :=
  mkPath child (path_node p :: path_parents p).

(** The paths of a subtree in the order [traverse] enters them: a node
    before its children, children in the order of Babel's visitor keys. *)
Fixpoint expr_paths (parents : list node) (e : expr) {struct e}
  : list NodePath :=
  let here := NExpr e :: parents in
  mkPath (NExpr e) parents ::
  match e with
  | Identifier _ | StringLiteral _ _ | NumericLiteral _ _
  | BooleanLiteral _ | NullLiteral => []
  | UnaryExpression _ a => expr_paths here a
  | BinaryExpression _ l r => expr_paths here l ++ expr_paths here r
  | AssignmentExpression _ l r => expr_paths here l ++ expr_paths here r
  | MemberExpression o p _ => expr_paths here o ++ expr_paths here p
  | CallExpression c args =>
      expr_paths here c ++ flat_map (expr_paths here) args
  | FunctionExpression _ _ body => flat_map (stmt_paths here) body
  | ObjectExpression props => flat_map (prop_paths here) props
  | ArrayExpression els =>
      flat_map (fun el => match el with
                          | Some x => expr_paths here x
                          | None => []
                          end) els
  end
with prop_paths (parents : list node) (p : property) {struct p}
  : list NodePath :=
  let here := NProp p :: parents in
  mkPath (NProp p) parents ::
  match p with
  | ObjectProperty k v => expr_paths here k ++ expr_paths here v
  end
with decl_paths (parents : list node) (d : declarator) {struct d}
  : list NodePath :=
  let here := NDecl d :: parents in
  mkPath (NDecl d) parents ::
  match d with
  | VariableDeclarator _ (Some init) => expr_paths here init
  | VariableDeclarator _ None => []
  end
with stmt_paths (parents : list node) (s : stmt) {struct s}
  : list NodePath :=
  let here := NStmt s :: parents in
  mkPath (NStmt s) parents ::
  match s with
  | ExpressionStatement e => expr_paths here e
  | VariableDeclaration _ ds => flat_map (decl_paths here) ds
  | FunctionDeclaration _ _ body => flat_map (stmt_paths here) body
  | ReturnStatement (Some e) => expr_paths here e
  | ReturnStatement None => []
  | BlockStatement body => flat_map (stmt_paths here) body
  | IfStatement t c a =>
      expr_paths here t ++ stmt_paths here c
        ++ match a with Some a' => stmt_paths here a' | None => [] end
  | WhileStatement t b => expr_paths here t ++ stmt_paths here b
  | DoWhileStatement b t => stmt_paths here b ++ expr_paths here t
  | TryStatement block handler finalizer =>
      flat_map (stmt_paths here) block
        ++ match handler with
           | Some h => flat_map (stmt_paths here) h
           | None => []
           end
        ++ match finalizer with
           | Some f => flat_map (stmt_paths here) f
           | None => []
           end
  | ExportNamedDeclaration d => stmt_paths here d
  | ExportDefaultDeclaration d => stmt_paths here d
  | ExportDefaultExpression e => expr_paths here e
  end.

(** The paths below a node, the node itself excluded: what
    [traverse(node, visitor, scope)] walks. *)
Definition children_paths (n : node) : list NodePath :=
  match n with
  | NExpr e => tail (expr_paths [] e)
  | NProp p => tail (prop_paths [] p)
  | NDecl d => tail (decl_paths [] d)
  | NStmt s => tail (stmt_paths [] s)
  | NProgram body => flat_map (stmt_paths [NProgram body]) body
  end.

(** [traverse(ast, visitor)] on a whole program. *)
Definition traverse (ast : program) : list NodePath :=
  children_paths (NProgram ast).

(** [node.type]. *)
Definition node_type (n : node) : jsstr :=
  match n with
  | NExpr e =>
      match e with
      | Identifier _ => js "Identifier"
      | StringLiteral _ _ => js "StringLiteral"
      | NumericLiteral _ _ => js "NumericLiteral"
      | BooleanLiteral _ => js "BooleanLiteral"
      | NullLiteral => js "NullLiteral"
      | UnaryExpression _ _ => js "UnaryExpression"
      | BinaryExpression _ _ _ => js "BinaryExpression"
      | AssignmentExpression _ _ _ => js "AssignmentExpression"
      | MemberExpression _ _ _ => js "MemberExpression"
      | CallExpression _ _ => js "CallExpression"
      | FunctionExpression _ _ _ => js "FunctionExpression"
      | ObjectExpression _ => js "ObjectExpression"
      | ArrayExpression _ => js "ArrayExpression"
      end
  | NProp _ => js "ObjectProperty"
  | NDecl _ => js "VariableDeclarator"
  | NStmt s =>
      match s with
      | ExpressionStatement _ => js "ExpressionStatement"
      | VariableDeclaration _ _ => js "VariableDeclaration"
      | FunctionDeclaration _ _ _ => js "FunctionDeclaration"
      | ReturnStatement _ => js "ReturnStatement"
      | BlockStatement _ => js "BlockStatement"
      | IfStatement _ _ _ => js "IfStatement"
      | WhileStatement _ _ => js "WhileStatement"
      | DoWhileStatement _ _ => js "DoWhileStatement"
      | TryStatement _ _ _ => js "TryStatement"
      | ExportNamedDeclaration _ => js "ExportNamedDeclaration"
      | ExportDefaultDeclaration _ | ExportDefaultExpression _ =>
          js "ExportDefaultDeclaration"
      end
  | NProgram _ => js "Program"
  end.

(** [traverse(node, visitor, scope)] on an inner node.  Babel refuses to
    start below the program without a scope. *)
Definition missingScope (n : node) : jserror :=
  Error (js "You must pass a scope and parentPath unless traversing a Program/File. Instead of that you got a "
            ++ node_type n ++ js " node").

Definition traverse_node (n : node) (scope_given : bool)
  : result (list NodePath) :=
  match n with
  | NProgram _ => Ok (children_paths n)
  | _ => if scope_given then Ok (children_paths n)
         else Throw (missingScope n)
  end.

(* ===================================================================== *)
(** ** Call-site classification (de.js 479-530, 688-709) *)
(* ===================================================================== *)

(** [extractConstantArguments] (de.js 479-494): one value per argument;
    [undefined] marks an argument that is not a constant. *)
Definition extractConstantArgument (arg : expr) : jsvalue :=
  match arg with
  | StringLiteral value _ => VString value
  | NumericLiteral value _ => VNumber value
  | BooleanLiteral value => VBoolean value
  | NullLiteral => VNull
  | Identifier name =>
      if jsstr_eqb name (js "undefined") then VUndefined else VUndefined
  | UnaryExpression operator (NumericLiteral value _) =>
      if jsstr_eqb operator (js "-") then VNumber (Qopp value)
      else VUndefined
  | _ => VUndefined
  end.

Definition extractConstantArguments (arguments : list expr) : list jsvalue :=
  map extractConstantArgument arguments.

(** [args.every(arg => arg !== undefined)]. *)
Definition allConstants (args : list jsvalue) : bool :=
  forallb is_defined args.

(** The argument forms with a case of their own in
    [extractConstantArguments], the identifier [undefined] apart: a
    string, a number, a boolean, [null], and a number under a minus
    sign. *)
Definition isLiteral (arg : expr) : bool :=
  match arg with
  | StringLiteral _ _ | NumericLiteral _ _ | BooleanLiteral _ | NullLiteral =>
      true
  | UnaryExpression operator (NumericLiteral _ _) => jsstr_eqb operator (js "-")
  | _ => false
  end.

(** A call whose callee is a function expression: an immediately-invoked
    function. *)
Definition isImmediateCall (n : node) : bool :=
  match n with
  | NExpr (CallExpression (FunctionExpression _ _ _) _) => true
  | _ => false
  end.

Definition isDoWhileStatement (n : node) : bool :=
  match n with NStmt (DoWhileStatement _ _) => true | _ => false end.

Definition isTryStatement (n : node) : bool :=
  match n with NStmt (TryStatement _ _ _) => true | _ => false end.

(** [isInitializationFunction] (de.js 501-530): the parent, then every
    ancestor, is tested for an immediately-invoked function; then the
    ancestors are searched for a [do]-[while] loop and for a [try]
    statement. *)
Definition isInitializationFunction (path : NodePath) : bool :=
  if match path_parents path with
     | parent :: _ => isImmediateCall parent
     | [] => false
     end then true
  else if existsb isImmediateCall (path_parents path) then true
  else if existsb isDoWhileStatement (path_parents path) then true
  else if existsb isTryStatement (path_parents path) then true
  else false.

(** The reserved words of de.js 698. *)
Definition reservedKeywords : list jsstr :=
  map js ["default"; "function"; "var"; "let"; "const"; "if"; "else"; "for";
          "while"; "do"; "switch"; "case"; "break"; "continue"; "return";
          "this"; "typeof"; "instanceof"; "new"; "delete"; "void"; "in";
          "try"; "catch"; "finally"; "throw"; "class"; "extends"; "super";
          "import"; "export"; "null"; "true"; "false"; "undefined"; "NaN";
          "Infinity"]%string.

(** [reservedKeywords.includes(propertyName)]. *)
Definition isReserved (propertyName : jsstr) : bool :=
  existsb (jsstr_eqb propertyName) reservedKeywords.

(** [extractFunctionName] (de.js 688-709); [None] is [null]. *)
Definition extractFunctionName (callee : expr) : option jsstr :=
  match callee with
  | Identifier name => Some name
  | MemberExpression _ (Identifier propertyName) _ =>
      if isReserved propertyName then None else Some propertyName
  | _ => None
  end.

(** The truthiness test [funcName && ...] on the result of
    [extractFunctionName]: [null] and the empty string are falsy. *)
Definition truthy_name (funcName : option jsstr) : option jsstr :=
  match funcName with
  | Some (c :: s) => Some (c :: s)
  | _ => None
  end.

(* ===================================================================== *)
(** ** A reference printer *)
(* ===================================================================== *)

(** The functions above take the printer as a parameter.  [printJS] is the
    instance used to run them on concrete trees.  It prints what
    [@babel/generator] prints for the expressions that serve as keys
    (calls with literal arguments: callee, parenthesis, arguments separated
    by a comma and a space); blocks are laid out on one line. *)
Module Printer.

Definition print_Z (z : Z) : jsstr := js (NilZero.string_of_int (Z.to_int z)).

(** The first [n] digits of the fractional part of [num / den]. *)
Fixpoint fraction_digits (n : nat) (num den : Z) : jsstr :=
  match n with
  | O => []
  | S n' =>
      if (num =? 0)%Z then []
      else print_Z (10 * num / den) ++ fraction_digits n' ((10 * num) mod den) den
  end.

Definition print_Q (q : Q) : jsstr :=
  let num := Qnum q in
  let den := Z.pos (Qden q) in
  let sign := if (num <? 0)%Z then js "-" else [] in
  let whole := (Z.abs num / den)%Z in
  let rest := (Z.abs num mod den)%Z in
  sign ++ print_Z whole
       ++ (if (rest =? 0)%Z then [] else js "." ++ fraction_digits 17 rest den).

Fixpoint join (sep : jsstr) (parts : list jsstr) : jsstr :=
  match parts with
  | [] => []
  | [x] => x
  | x :: rest => x ++ sep ++ join sep rest
  end.

Definition quoted (s : jsstr) : jsstr := dquote :: s ++ [dquote].

(** The text of a string literal for a value that has none. *)
Definition escaped (value : jsstr) : jsstr :=
  flat_map (fun c => if N.eqb c dquote then [backslash; dquote]
                     else if N.eqb c backslash then [backslash; backslash]
                     else if N.eqb c 10 then [backslash; 110%N]
                     else if N.eqb c 13 then [backslash; 114%N]
                     else [c]) value.
Definition parens (s : jsstr) : jsstr := js "(" ++ s ++ js ")".

(** Operands that are printed between parentheses.  A function that
    is called is parenthesised only where it starts a statement. *)
Definition compound (e : expr) : bool :=
  match e with
  | BinaryExpression _ _ _ | AssignmentExpression _ _ _
  | FunctionExpression _ _ _ | ObjectExpression _ => true
  | _ => false
  end.

Definition isFunctionExpression (e : expr) : bool :=
  match e with FunctionExpression _ _ _ => true | _ => false end.

Fixpoint print_expr (e : expr) {struct e} : jsstr :=
  let operand x := if compound x then parens (print_expr x) else print_expr x in
  match e with
  | Identifier name => name
  | StringLiteral _ (Some raw) => raw
  | StringLiteral value None => quoted (escaped value)
  | NumericLiteral _ (Some raw) => raw
  | NumericLiteral value None => print_Q value
  | BooleanLiteral true => js "true"
  | BooleanLiteral false => js "false"
  | NullLiteral => js "null"
  | UnaryExpression op a =>
      op ++ (if existsb (fun c => (97 <=? c)%N && (c <=? 122)%N) op
             then js " " else []) ++ operand a
  | BinaryExpression op l r => operand l ++ js " " ++ op ++ js " " ++ operand r
  | AssignmentExpression op l r =>
      print_expr l ++ js " " ++ op ++ js " " ++ print_expr r
  | MemberExpression o p true => operand o ++ js "[" ++ print_expr p ++ js "]"
  | MemberExpression o p false => operand o ++ js "." ++ print_expr p
  | CallExpression c arguments =>
      (if isFunctionExpression c then print_expr c else operand c)
        ++ parens (join (js ", ") (map print_expr arguments))
  | FunctionExpression i ps body =>
      js "function " ++ match i with Some n => n | None => [] end
        ++ parens (join (js ", ") ps)
        ++ js " { " ++ join (js " ") (map print_stmt body) ++ js " }"
  | ObjectExpression props =>
      js "{ " ++ join (js ", ") (map print_prop props) ++ js " }"
  | ArrayExpression els =>
      js "[" ++ join (js ", ")
                     (map (fun el => match el with
                                     | Some x => print_expr x
                                     | None => []
                                     end) els)
             ++ js "]"
  end
with print_prop (p : property) {struct p} : jsstr :=
  match p with
  | ObjectProperty k v => print_expr k ++ js ": " ++ print_expr v
  end
with print_decl (d : declarator) {struct d} : jsstr :=
  match d with
  | VariableDeclarator i (Some init) => i ++ js " = " ++ print_expr init
  | VariableDeclarator i None => i
  end
with print_stmt (s : stmt) {struct s} : jsstr :=
  let block body := js "{ " ++ join (js " ") (map print_stmt body) ++ js " }" in
  let operand x := if compound x then parens (print_expr x) else print_expr x in
  match s with
  | ExpressionStatement e =>
      match e with
      | CallExpression c arguments =>
          operand c ++ parens (join (js ", ") (map print_expr arguments))
            ++ js ";"
      | FunctionExpression _ _ _ | ObjectExpression _ =>
          parens (print_expr e) ++ js ";"
      | _ => print_expr e ++ js ";"
      end
  | VariableDeclaration k ds =>
      k ++ js " " ++ join (js ", ") (map print_decl ds) ++ js ";"
  | FunctionDeclaration i ps body =>
      js "function " ++ match i with Some n => n | None => [] end
        ++ parens (join (js ", ") ps) ++ js " " ++ block body
  | ReturnStatement (Some e) => js "return " ++ print_expr e ++ js ";"
  | ReturnStatement None => js "return;"
  | BlockStatement body => block body
  | IfStatement t c a =>
      js "if " ++ parens (print_expr t) ++ js " " ++ print_stmt c
        ++ match a with
           | Some a' => js " else " ++ print_stmt a'
           | None => []
           end
  | WhileStatement t b => js "while " ++ parens (print_expr t) ++ js " " ++ print_stmt b
  | DoWhileStatement b t =>
      js "do " ++ print_stmt b ++ js " while " ++ parens (print_expr t) ++ js ";"
  | TryStatement b handler finalizer =>
      js "try " ++ block b
        ++ match handler with
           | Some h => js " catch (e) " ++ block h
           | None => []
           end
        ++ match finalizer with
           | Some f => js " finally " ++ block f
           | None => []
           end
  | ExportNamedDeclaration d => js "export " ++ print_stmt d
  | ExportDefaultDeclaration d => js "export default " ++ print_stmt d
  | ExportDefaultExpression e => js "export default " ++ print_expr e ++ js ";"
  end.

Definition printJS (n : node) : jsstr :=
  match n with
  | NExpr e => print_expr e
  | NProp p => print_prop p
  | NDecl d => print_decl d
  | NStmt s => print_stmt s
  | NProgram body => join [10%N] (map print_stmt body)
  end.

End Printer.

(* ===================================================================== *)
(** ** The call-site extractor (de.js 716-885) and the rewriter
       (de.js 1042-1116), on trees *)
(* ===================================================================== *)

(** An entry of [actualCalls]. *)
Record actualCall := mkCall {
  callExpression : jsstr;
  funcName : jsstr;
  args : list jsvalue;
  path : NodePath
}.

(** [Object.prototype.toString] on a plain object.  A Babel node has no
    [toString] of its own, so [node.toString()] is this text, while
    [path.toString()] prints the node. *)
Definition objectToString : jsstr := js "[object Object]".

(** [callExpressionMap]: a [Map] from printed calls to captured values. *)
Abbreviation resultMap := (gmap jsstr jsvalue).

Section Trees.

(** [generate(node).code], the printer of [@babel/generator]. *)
Variable generate : node -> jsstr.
Variable cfg : config.

(** [path.toString()]. *)
Definition path_toString (p : NodePath) : jsstr := generate (path_node p).

(** The body shared by the five visitors of [extractActualFunctionCalls]:
    [target] is the path of the call, [text] what the visitor stores as
    [callExpression]. *)
Definition recordCall (target : NodePath) (text : jsstr) : list actualCall :=
  match path_node target with
  | NExpr (CallExpression callee arguments) =>
      match truthy_name (extractFunctionName callee) with
      | Some name =>
          if shouldInterceptFunction cfg name (length arguments) then
            if isInitializationFunction target then []
            else
              let constants := extractConstantArguments arguments in
              if allConstants constants
              then [mkCall text name constants target]
              else []
          else []
      | None => []
      end
  | _ => []
  end.

(** What one visit pushes on [actualCalls].  The [CallExpression] visitor
    stores [path.toString()]; the other four store [node.toString()] of
    the call they find in a field of the visited node. *)
Definition visitActualCalls (p : NodePath) : list actualCall :=
  match path_node p with
  | NExpr (CallExpression _ _) => recordCall p (path_toString p)
  | NProp (ObjectProperty _ (CallExpression c a)) =>
      recordCall (path_get p (NExpr (CallExpression c a))) objectToString
  | NExpr (ArrayExpression elements) =>
      flat_map (fun element =>
                  match element with
                  | Some (CallExpression c a) =>
                      recordCall (path_get p (NExpr (CallExpression c a)))
                                 objectToString
                  | _ => []
                  end) elements
  | NExpr (AssignmentExpression _ _ (CallExpression c a)) =>
      recordCall (path_get p (NExpr (CallExpression c a))) objectToString
  | NDecl (VariableDeclarator _ (Some (CallExpression c a))) =>
      recordCall (path_get p (NExpr (CallExpression c a))) objectToString
  | _ => []
  end.

(** The traversal of [extractActualFunctionCalls]. *)
Definition collectActualCalls (ast : program) : list actualCall :=
  flat_map visitActualCalls (traverse ast).

(** The literal node built for a captured value (de.js 1074-1092);
    [None] when the value is of a complex type and the call is skipped. *)
Definition literalFor (value : jsvalue) : option expr :=
  match value with
  | VString s => Some (StringLiteral s None)
  | VNumber q => Some (NumericLiteral q None)
  | VBoolean b => Some (BooleanLiteral b)
  | VNull => Some NullLiteral
  | VUndefined => Some (Identifier (js "undefined"))
  | VObject => None
  end.

(** The [CallExpression] visitor of [applyCallExpressionReplacements]:
    the node that replaces [e], if any. *)
Definition replacementFor (callExpressionMap : resultMap) (e : expr)
  : option expr :=
  match e with
  | CallExpression (Identifier name) arguments =>
      if jsstr_eqb name (js "__interceptFunctionCall") then None
      else if shouldInterceptFunction cfg name (length arguments) then
        match callExpressionMap !! generate (NExpr e) with
        | Some value => literalFor value
        | None => None
        end
      else None
  | _ => None
  end.

(** The traversal of [applyCallExpressionReplacements]: a call is visited
    before its children; a replaced call has no children left to visit. *)
Fixpoint replaceCalls (m : resultMap) (e : expr) {struct e} : expr :=
  match e with
  | Identifier _ | StringLiteral _ _ | NumericLiteral _ _
  | BooleanLiteral _ | NullLiteral => e
  | UnaryExpression op a => UnaryExpression op (replaceCalls m a)
  | BinaryExpression op l r =>
      BinaryExpression op (replaceCalls m l) (replaceCalls m r)
  | AssignmentExpression op l r =>
      AssignmentExpression op (replaceCalls m l) (replaceCalls m r)
  | MemberExpression o p c =>
      MemberExpression (replaceCalls m o) (replaceCalls m p) c
  | CallExpression c arguments =>
      match replacementFor m e with
      | Some literal => literal
      | None => CallExpression (replaceCalls m c) (map (replaceCalls m) arguments)
      end
  | FunctionExpression i ps body =>
      FunctionExpression i ps (map (replaceCallsStmt m) body)
  | ObjectExpression props =>
      ObjectExpression (map (replaceCallsProp m) props)
  | ArrayExpression els =>
      ArrayExpression (map (fun el => match el with
                                      | Some x => Some (replaceCalls m x)
                                      | None => None
                                      end) els)
  end
with replaceCallsProp (m : resultMap) (p : property) {struct p} : property :=
  match p with
  | ObjectProperty k v => ObjectProperty (replaceCalls m k) (replaceCalls m v)
  end
with replaceCallsDecl (m : resultMap) (d : declarator) {struct d}
  : declarator :=
  match d with
  | VariableDeclarator i (Some init) =>
      VariableDeclarator i (Some (replaceCalls m init))
  | VariableDeclarator i None => d
  end
with replaceCallsStmt (m : resultMap) (s : stmt) {struct s} : stmt :=
  match s with
  | ExpressionStatement e => ExpressionStatement (replaceCalls m e)
  | VariableDeclaration k ds =>
      VariableDeclaration k (map (replaceCallsDecl m) ds)
  | FunctionDeclaration i ps body =>
      FunctionDeclaration i ps (map (replaceCallsStmt m) body)
  | ReturnStatement (Some e) => ReturnStatement (Some (replaceCalls m e))
  | ReturnStatement None => s
  | BlockStatement body => BlockStatement (map (replaceCallsStmt m) body)
  | IfStatement t c a =>
      IfStatement (replaceCalls m t) (replaceCallsStmt m c)
                  (match a with
                   | Some a' => Some (replaceCallsStmt m a')
                   | None => None
                   end)
  | WhileStatement t b => WhileStatement (replaceCalls m t) (replaceCallsStmt m b)
  | DoWhileStatement b t =>
      DoWhileStatement (replaceCallsStmt m b) (replaceCalls m t)
  | TryStatement block handler finalizer =>
      TryStatement (map (replaceCallsStmt m) block)
                   (match handler with
                    | Some h => Some (map (replaceCallsStmt m) h)
                    | None => None
                    end)
                   (match finalizer with
                    | Some f => Some (map (replaceCallsStmt m) f)
                    | None => None
                    end)
  | ExportNamedDeclaration d => ExportNamedDeclaration (replaceCallsStmt m d)
  | ExportDefaultDeclaration d =>
      ExportDefaultDeclaration (replaceCallsStmt m d)
  | ExportDefaultExpression e => ExportDefaultExpression (replaceCalls m e)
  end.

Definition replaceCallsProgram (m : resultMap) (ast : program) : program :=
  map (replaceCallsStmt m) ast.

(* --------------------------------------------------------------------- *)
(** *** Dependencies and helper definitions (de.js 192-281, 328-472,
        537-617) *)

(** The visitor of the inner traversals: the callee name of a call when
    the intercept pattern matches it. *)
Definition visitHelperCall (p : NodePath) : list jsstr :=
  match path_node p with
  | NExpr (CallExpression callee _) =>
      match truthy_name (extractFunctionName callee) with
      | Some name => if interceptPattern cfg name then [name] else []
      | None => []
      end
  | _ => []
  end.

(** [traverse(node, { CallExpression ... }, path.scope)]: a scope is
    passed, so the traversal runs. *)
Definition helperCallsBelow (n : node) : list jsstr :=
  flat_map visitHelperCall (children_paths n).

(** What [extractImmediateFunctions] returns. *)
Record immediateFunctionsData := mkImmediate {
  immediate_functions : list jsstr;
  immediate_dependencies : gset jsstr
}.

(** One visit of the traversal of [extractImmediateFunctions]: the code
    pushed on [immediateFunctions] and the dependencies found. *)
Definition visitImmediate (p : NodePath) : list jsstr * list jsstr :=
  match path_node p with
  | NStmt (ExpressionStatement (CallExpression callee _)) =>
      if Printer.isFunctionExpression callee
      then ([generate (path_node p)], helperCallsBelow (NExpr callee))
      else ([], [])
  | NExpr (CallExpression callee _) =>
      if Printer.isFunctionExpression callee then
        let functionExprCode := generate (NExpr callee) in
        let argsCode := skipn (length functionExprCode) (generate (path_node p)) in
        ([js "(" ++ functionExprCode ++ js ")" ++ argsCode ++ js ";"],
         helperCallsBelow (NExpr callee))
      else ([], [])
  | _ => ([], [])
  end.

Definition collectImmediateFunctions (ast : program) : immediateFunctionsData :=
  let visits := map visitImmediate (traverse ast) in
  mkImmediate (flat_map fst visits) (list_to_set (flat_map snd visits)).

(** A definition of a named function: a declaration, or a variable bound
    to a function expression.  [def_body] is the node whose children the
    dependency analysis walks, [def_node] the node that is printed. *)
Inductive definitionKind := KDeclaration | KExpression.

Record funcInfo := mkFuncInfo {
  def_name : jsstr;
  def_node : node;
  def_body : node;
  def_kind : definitionKind
}.

Definition visitDefinition (p : NodePath) : list funcInfo :=
  match path_node p with
  | NStmt (FunctionDeclaration (Some (c :: name)) _ _) =>
      [mkFuncInfo (c :: name) (path_node p) (path_node p) KDeclaration]
  | NDecl (VariableDeclarator (c :: name) (Some (FunctionExpression i ps b))) =>
      [mkFuncInfo (c :: name) (path_node p)
                  (NExpr (FunctionExpression i ps b)) KExpression]
  | _ => []
  end.

Definition definitions (ast : program) : list funcInfo :=
  flat_map visitDefinition (traverse ast).

(** The first traversal of [collectInitializationFunctionCalls]: helpers
    called from an initializer context. *)
Definition visitInitializationCall (p : NodePath) : list jsstr :=
  match path_node p with
  | NExpr (CallExpression callee _) =>
      match truthy_name (extractFunctionName callee) with
      | Some name =>
          if interceptPattern cfg name && isInitializationFunction p
          then [name] else []
      | None => []
      end
  | _ => []
  end.

(** One round of the [while (hasNewDependencies)] loop. *)
Definition dependencyRound (ast : program) (calls : gset jsstr) : gset jsstr :=
  calls ∪ list_to_set
    (flat_map (fun d => if bool_decide (def_name d ∈ calls)
                        then helperCallsBelow (def_body d) else [])
              (definitions ast)).

(** The loop, with the number of rounds bounded by [rounds]: a round that
    adds nothing ends it. *)
Fixpoint dependencyLoop (rounds : nat) (ast : program) (calls : gset jsstr)
  : gset jsstr :=
  match rounds with
  | O => calls
  | S rounds' =>
      let calls' := dependencyRound ast calls in
      if bool_decide (calls' = calls) then calls
      else dependencyLoop rounds' ast calls'
  end.

(** Every productive round adds the callee name of some call of the tree,
    so there are no more productive rounds than the tree has nodes. *)
Definition collectInitializationCalls (ast : program) : gset jsstr :=
  dependencyLoop (S (length (traverse ast))) ast
                 (list_to_set (flat_map visitInitializationCall (traverse ast))).

(** A [Map] from names to code, in insertion order: [map.set(k, v)]. *)
Fixpoint map_set (k v : jsstr) (m : list (jsstr * jsstr)) : list (jsstr * jsstr) :=
  match m with
  | [] => [(k, v)]
  | (k', v') :: m' => if jsstr_eqb k k' then (k, v) :: m'
                      else (k', v') :: map_set k v m'
  end.

(** The traversals of [extractFunctionDefinitions]: the definitions whose
    name matches the intercept pattern, then those named by a dependency
    and not collected yet. *)
Definition matchingDefinitions (ast : program) : list funcInfo :=
  filter (fun d => interceptPattern cfg (def_name d)) (definitions ast).

Definition supplementDefinitions (allDependencies : gset jsstr)
    (ast : program) (collected : list funcInfo) : list funcInfo :=
  fold_left
    (fun all d =>
       if bool_decide (def_name d ∈ allDependencies)
          && negb (existsb (fun d' => jsstr_eqb (def_name d') (def_name d)) all)
       then all ++ [d] else all)
    (definitions ast) collected.

Definition collectFunctionDefinitions
    (initializationCalls immediateDependencies : gset jsstr) (ast : program)
  : list jsstr * list (jsstr * jsstr) :=
  let allDependencies := initializationCalls ∪ immediateDependencies in
  let allFunctions :=
    supplementDefinitions allDependencies ast (matchingDefinitions ast) in
  (map def_name allFunctions,
   fold_left (fun m d => map_set (def_name d) (generate (def_node d)) m)
             allFunctions []).

(* --------------------------------------------------------------------- *)
(** *** The evaluation harness (de.js 625-681, 894-1032) *)

(** [instrumentFunctionWithTracing] (de.js 625-681). *)
Definition traceCode (functionName : jsstr) : jsstr :=
  [10%N] ++ js "  // [TRACE] Function " ++ functionName ++ js " started"
    ++ [10%N] ++ js "  if (typeof globalTraceLog !== 'undefined') {"
    ++ [10%N] ++ js "    globalTraceLog.push({ type: 'func_start', func: '"
    ++ functionName ++ js "' });"
    ++ [10%N] ++ js "  }" ++ [10%N] ++ js "  ".

Definition instrumentFunctionWithTracing
    (functionCode functionName : jsstr) : jsstr :=
  if negb (debug cfg) then functionCode
  else if starts_with (js "function") functionCode
          || includes (js "= function") functionCode then
    match index_of_unit 123%N functionCode with
    | None => functionCode
    | Some bodyStart =>
        firstn (S bodyStart) functionCode ++ traceCode functionName
          ++ skipn (S bodyStart) functionCode
    end
  else functionCode.

(** One block of [testActualCalls]: the comment line, the callee, the
    arguments (written with [JSON.stringify] and read back by the
    interpreter) and the text placed between the double quotes of the key:
    the stored call expression with a backslash put before every double
    quote. *)
Record driverLine := mkLine {
  line_comment : jsstr;
  line_funcName : jsstr;
  line_args : list jsvalue;
  line_key : jsstr
}.

Definition driverLineFor (call : actualCall) : driverLine :=
  mkLine (callExpression call) (funcName call) (args call)
         (replace_unit dquote [backslash; dquote] (callExpression call)).

(** The assembled program, section by section: the immediately-invoked
    functions, the helper definitions, the driver.  The fixed preamble
    ([safeCall]) and epilogue are part of the interpreter model below. *)
Record testCode := mkTestCode {
  test_immediate : list jsstr;
  test_definitions : list jsstr;
  test_driver : list driverLine
}.

Definition assembleTestCode
    (functionCodeMap : list (jsstr * jsstr)) (actualCalls : list actualCall)
    (immediate : immediateFunctionsData) : testCode :=
  mkTestCode
    (immediate_functions immediate)
    (map (fun '(name, code) =>
            if debug cfg && traceLines cfg
            then instrumentFunctionWithTracing code name else code)
         functionCodeMap)
    (map driverLineFor actualCalls).

(* --------------------------------------------------------------------- *)
(** *** The interpreter ([vm.runInContext]) *)

(** The interpreter is an external collaborator.  Its model says how the
    run of the context body ends, which names are bound to functions
    afterwards and how a call of one ends, and how a string literal is
    read.  It is a parameter; [safeCall] and the driver are run on it. *)
Inductive completion :=
| Completes
| Throws (e : jserror)
| Diverges.

Inductive callOutcome :=
| Returned (v : jsvalue)
| Threw (e : jserror)
| NeverReturns.

Record interpreter := mkInterpreter {
  (** the value of the string literal with the given text between its
      quotes; [None] when the text is not the body of one literal *)
  literalValue : jsstr -> option jsstr;
  (** running the immediately-invoked functions and the definitions *)
  contextBody : list jsstr -> list jsstr -> completion;
  (** [typeof name === 'function'] after the context body, and the
      function *)
  helper : list jsstr -> list jsstr -> jsstr
           -> option (list jsvalue -> callOutcome)
}.

Inductive vmOutcome :=
| VmReturned (globalResults : resultMap)
| VmThrew (e : jserror)
| VmTimedOut
| VmHangs.

Variable vm : interpreter.

(** A driver block parses as written only if its comment stays on its
    line and the key is a string literal. *)
Definition driverLineParses (l : driverLine) : bool :=
  negb (existsb isLineTerminator (line_comment l))
  && match literalValue vm (line_key l) with Some _ => true | None => false end.

(** [testActualCalls]: [safeCall] records the value of a call that
    returns under the key and swallows an exception; a callee that is not
    a function is reported.  [None] when a call never returns. *)
Fixpoint runDriver (helpers : jsstr -> option (list jsvalue -> callOutcome))
    (lines : list driverLine) (globalResults : resultMap)
  : option resultMap :=
  match lines with
  | [] => Some globalResults
  | l :: rest =>
      match helpers (line_funcName l), literalValue vm (line_key l) with
      | Some func, Some callStr =>
          match func (line_args l) with
          | Returned result =>
              runDriver helpers rest (<[callStr := result]> globalResults)
          | Threw _ => runDriver helpers rest globalResults
          | NeverReturns => None
          end
      | _, _ => runDriver helpers rest globalResults
      end
  end.

(** [vm.runInContext(testCode, context, { timeout })]: synchronous.
    Without the [timeout] option a program that does not end keeps the
    call from returning; with it the call throws when the time is up. *)
Definition runInContext (code : testCode) (globalResults : resultMap)
    (timeout : option N) : vmOutcome :=
  let stopped := match timeout with Some _ => VmTimedOut | None => VmHangs end in
  if negb (forallb driverLineParses (test_driver code))
  then VmThrew (SyntaxError (js "Invalid or unexpected token"))
  else
    match contextBody vm (test_immediate code) (test_definitions code) with
    | Throws e => VmThrew e
    | Diverges => stopped
    | Completes =>
        match runDriver (helper vm (test_immediate code) (test_definitions code))
                        (test_driver code) globalResults with
        | Some results => VmReturned results
        | None => stopped
        end
    end.

(** What a step of the host program does: it returns, it throws to its
    caller, or it never returns. *)
Inductive outcome (A : Type) :=
| Finished (a : A)
| Raised (e : jserror)
| Hangs.
Arguments Finished {A} a.
Arguments Raised {A} e.
Arguments Hangs {A}.

(** Step 5 of [processWithNewStrategy] (de.js 1641-1683).  [setTimeout]
    queues a callback; Node runs a queued callback only when the running
    script has returned to the event loop, so nothing runs it during the
    synchronous [vm.runInContext], which is called without options.
    [Finished None] is [return null]. *)
Definition executeTestCode (code : testCode) : outcome (option resultMap) :=
  let globalResults : resultMap := ∅ in
  match runInContext code globalResults None with
  | VmReturned results => Finished (Some results)
  | VmThrew _ => Finished None
  | VmTimedOut => Finished None
  | VmHangs => Hangs
  end.

(* --------------------------------------------------------------------- *)
(** *** The cleanup analyzer (de.js 1125-1279) *)

(** What [analyzeFunctionsForCleanup] returns: [functions] and
    [immediateFunctions]. *)
Record cleanupData := mkCleanup {
  cleanup_functions : gset jsstr;
  cleanup_immediateFunctions : gset jsstr
}.

(** The two sets are created before the [try] block and filled inside
    it: a computation of the block threads them and may throw, and what
    it had stored when it threw is still there. *)
Definition Analysis (A : Type) : Type := cleanupData -> result A * cleanupData.

Definition ret {A} (a : A) : Analysis A := fun st => (Ok a, st).

Definition bind {A B} (m : Analysis A) (k : A -> Analysis B) : Analysis B :=
  fun st => match m st with
            | (inr a, st') => k a st'
            | (inl e, st') => (inl e, st')
            end.

Definition lift {A} (r : result A) : Analysis A := fun st => (r, st).

Definition addFunction (name : jsstr) : Analysis unit :=
  fun st => (Ok tt, mkCleanup ({[name]} ∪ cleanup_functions st)
                              (cleanup_immediateFunctions st)).

Definition addImmediateFunction (key : jsstr) : Analysis unit :=
  fun st => (Ok tt, mkCleanup (cleanup_functions st)
                              ({[key]} ∪ cleanup_immediateFunctions st)).

(** [for (const x of xs) { body }]. *)
Fixpoint forEach {A} (xs : list A) (body : A -> Analysis unit) : Analysis unit :=
  match xs with
  | [] => ret tt
  | x :: rest => bind (body x) (fun _ => forEach rest body)
  end.

(** A traversal whose visitor may throw, collecting what it returns. *)
Fixpoint collectM {A B} (f : A -> result (list B)) (xs : list A)
  : result (list B) :=
  match xs with
  | [] => Ok []
  | x :: rest =>
      bind_result (f x) (fun ys =>
      bind_result (collectM f rest) (fun zs => Ok (ys ++ zs)))
  end.

(** The export visitors read [declaration.id.name]; an anonymous default
    export has no [id]. *)
Definition visitExport (p : NodePath) : result (list jsstr) :=
  match path_node p with
  | NStmt (ExportNamedDeclaration (FunctionDeclaration i _ _))
  | NStmt (ExportDefaultDeclaration (FunctionDeclaration i _ _)) =>
      match i with
      | Some name => Ok [name]
      | None => Throw (TypeError (js "Cannot read properties of null (reading 'name')"))
      end
  | _ => Ok []
  end.

(** The second traversal: the helper definitions met so far and, for each
    name, the number of calls counted since its latest definition. *)
Definition visitReference (st : gset jsstr * gmap jsstr nat) (p : NodePath)
  : gset jsstr * gmap jsstr nat :=
  let '(allFunctions, functionReferences) := st in
  match path_node p with
  | NStmt (FunctionDeclaration (Some (c :: name)) _ _)
  | NDecl (VariableDeclarator (c :: name) (Some (FunctionExpression _ _ _))) =>
      if interceptPattern cfg (c :: name)
      then ({[c :: name]} ∪ allFunctions, <[c :: name := O]> functionReferences)
      else st
  | NExpr (CallExpression callee _) =>
      match truthy_name (extractFunctionName callee) with
      | Some name =>
          if bool_decide (name ∈ allFunctions)
          then (allFunctions,
                <[name := S (default O (functionReferences !! name))]>
                  functionReferences)
          else st
      | None => st
      end
  | _ => st
  end.

Definition countReferences (ast : program) : gset jsstr * gmap jsstr nat :=
  fold_left visitReference (traverse ast) (∅, ∅).

(** The test of de.js 1184-1206 for one helper name. *)
Definition callsOf (actualCalls : list actualCall) (name : jsstr)
  : list actualCall :=
  filter (fun call => jsstr_eqb (funcName call) name) actualCalls.

Definition markedForCleanup (exportedFunctions : gset jsstr)
    (functionReferences : gmap jsstr nat) (actualCalls : list actualCall)
    (name : jsstr) : bool :=
  if bool_decide (name ∈ exportedFunctions) then false
  else
    let isOnlyCalledByConstants :=
      existsb (fun call => jsstr_eqb (funcName call) name) actualCalls in
    let referenceCount := default O (functionReferences !! name) in
    isOnlyCalledByConstants
    && (referenceCount <=? length (callsOf actualCalls name))%nat.

(** [immediate_] followed by the first ten characters of the base-64
    form of the printed statement. *)
Definition immediateFunctionKey (immediateFunctionCode : jsstr) : jsstr :=
  js "immediate_" ++ firstn 10 (base64 (utf8 immediateFunctionCode)).

(** A call below an immediately-invoked function that the intercept
    pattern matches and whose printed form is not a key of the map. *)
Definition isUnreplacedCall (callExpressionMap : resultMap) (q : NodePath)
  : bool :=
  match path_node q with
  | NExpr (CallExpression callee _) =>
      match truthy_name (extractFunctionName callee) with
      | Some name =>
          interceptPattern cfg name
          && negb (bool_decide (is_Some (callExpressionMap !! path_toString q)))
      | None => false
      end
  | _ => false
  end.

(** The visitor of de.js 1213-1250.  The inner [traverse] is called on the
    function expression without a scope. *)
Definition visitImmediateForCleanup (callExpressionMap : resultMap)
    (p : NodePath) : Analysis unit :=
  match path_node p with
  | NStmt (ExpressionStatement (CallExpression callee _)) =>
      if Printer.isFunctionExpression callee then
        let immediateFunctionKey' := immediateFunctionKey (generate (path_node p)) in
        bind (lift (traverse_node (NExpr callee) false)) (fun inner =>
        let hasUnreplacedCalls := existsb (isUnreplacedCall callExpressionMap) inner in
        if negb hasUnreplacedCalls
        then addImmediateFunction immediateFunctionKey'
        else ret tt)
      else ret tt
  | _ => ret tt
  end.

(** The visitor of the guarded branch (de.js 1254-1266). *)
Definition visitImmediateUnconditionally (p : NodePath) : Analysis unit :=
  match path_node p with
  | NStmt (ExpressionStatement (CallExpression callee _)) =>
      if Printer.isFunctionExpression callee
      then addImmediateFunction (immediateFunctionKey (generate (path_node p)))
      else ret tt
  | _ => ret tt
  end.

(** The bindings in scope at de.js 1252: the locals of
    [analyzeFunctionsForCleanup], then the constants and functions of the
    module.  All of them hold objects or functions, which are truthy,
    except the string [code].  Node's global object has no property named
    like the guard. *)
Definition bindingsInScope : list jsstr :=
  map js ["callExpressionMap"; "actualCalls"; "functionsToCleanup";
          "immediateFunctionsToCleanup"; "ast"; "allFunctions";
          "functionReferences"; "exportedFunctions";
          "immediateFunctionCallsToCheck";
          "fs"; "path"; "vm"; "yargs"; "hideBin"; "parser"; "traverse";
          "generate"; "t"; "argv"; "config"; "shouldInterceptFunction";
          "processStringReverse"; "preprocessCode";
          "collectInitializationFunctionCalls"; "topologicalSort";
          "extractFunctionDefinitions"; "extractConstantArguments";
          "isInitializationFunction"; "extractImmediateFunctions";
          "instrumentFunctionWithTracing"; "extractFunctionName";
          "extractActualFunctionCalls"; "generateFunctionTestCode";
          "applyCallExpressionReplacements"; "analyzeFunctionsForCleanup";
          "cleanupDecryptedFunctions"; "analyzeFunctionCallDifferences";
          "saveDebugLogs"; "createContext"; "processWithNewStrategy";
          "main"]%string.

(** Reading an identifier as a condition: its truthiness, or the
    [ReferenceError] of an identifier that nothing binds. *)
Definition readCondition (code : jsstr) (name : jsstr) : result bool :=
  if jsstr_eqb name (js "code")
  then Ok (match code with [] => false | _ => true end)
  else if existsb (jsstr_eqb name) bindingsInScope then Ok true
  else Throw (ReferenceError name).

(** de.js 1252-1267. *)
Definition guardedBranch (code : jsstr) (ast : program) : Analysis unit :=
  bind (lift (readCondition code (js "shouldCleanupImmediateFunctions")))
       (fun shouldCleanupImmediateFunctions =>
          if shouldCleanupImmediateFunctions
          then forEach (traverse ast) visitImmediateUnconditionally
          else ret tt).

(** The [try] block after the parse, up to the guarded branch. *)
Definition analysisBeforeGuard (ast : program)
    (callExpressionMap : resultMap) (actualCalls : list actualCall)
  : Analysis unit :=
  bind (lift (collectM visitExport (traverse ast))) (fun exported =>
  let exportedFunctions : gset jsstr := list_to_set exported in
  let '(allFunctions, functionReferences) := countReferences ast in
  bind (forEach (elements allFunctions) (fun name =>
          if markedForCleanup exportedFunctions functionReferences
                              actualCalls name
          then addFunction name else ret tt)) (fun _ =>
  forEach (traverse ast) (visitImmediateForCleanup callExpressionMap))).

(* --------------------------------------------------------------------- *)
(** *** Removing or commenting definitions (de.js 1288-1408), on trees *)

(** [parser.parse(code, options)]: the program body, or the exception. *)
Variable parse : jsstr -> result program.

(** What a visitor does with the node it visits: [path.remove()] or
    [path.replaceWithMultiple(nodes)]. *)
Inductive edit :=
| Remove
| ReplaceWithMultiple (nodes : list stmt).

(** What stands in the place of a statement after the traversal. *)
Inductive action :=
| Kept (s : stmt)
| Removed
| Spliced (nodes : list stmt).

Definition mapM {A B} (f : A -> result B) : list A -> result (list B) :=
  fix go (xs : list A) : result (list B) :=
    match xs with
    | [] => Ok []
    | x :: rest =>
        bind_result (f x) (fun y =>
        bind_result (go rest) (fun ys => Ok (y :: ys)))
    end.

(** A statement list after the traversal of its elements. *)
Definition spliceActions (actions : list action) : list stmt :=
  flat_map (fun a => match a with
                     | Kept s => [s]
                     | Removed => []
                     | Spliced nodes => nodes
                     end) actions.

Definition cannotFit {A} : result A :=
  Throw (Error (js "We don't know what to do with this node type. We were previously a Statement but we can't fit in here?")).

(** A statement that is the body of a loop or the consequent of an [if]:
    Babel puts an empty block where it is removed, and cannot insert the
    nodes of a multiple replacement there. *)
Definition inBodyPosition (a : action) : result stmt :=
  match a with
  | Kept s => Ok s
  | Removed => Ok (BlockStatement [])
  | Spliced _ => cannotFit
  end.

Definition inAlternatePosition (a : action) : result (option stmt) :=
  match a with
  | Kept s => Ok (Some s)
  | Removed => Ok None
  | Spliced _ => cannotFit
  end.

(** The traversal, for a visitor of statements and a visitor of
    declarators that say which nodes to edit.  An edited node is not
    entered.  A declaration whose last declarator is removed and an export
    whose declaration is removed are removed with it.  The nodes of a
    multiple replacement are the body of a parsed comment, which is empty;
    a declarator list has no place for statements, so a replacement of a
    declarator by a non-empty body is an error of the model. *)
Section Cleaning.

Variable onStmt : stmt -> result (option edit).
Variable onDecl : declarator -> result (option edit).

Fixpoint cleanExpr (e : expr) {struct e} : result expr :=
  match e with
  | Identifier _ | StringLiteral _ _ | NumericLiteral _ _
  | BooleanLiteral _ | NullLiteral => Ok e
  | UnaryExpression op a =>
      bind_result (cleanExpr a) (fun a' => Ok (UnaryExpression op a'))
  | BinaryExpression op l r =>
      bind_result (cleanExpr l) (fun l' =>
      bind_result (cleanExpr r) (fun r' => Ok (BinaryExpression op l' r')))
  | AssignmentExpression op l r =>
      bind_result (cleanExpr l) (fun l' =>
      bind_result (cleanExpr r) (fun r' => Ok (AssignmentExpression op l' r')))
  | MemberExpression o p c =>
      bind_result (cleanExpr o) (fun o' =>
      bind_result (cleanExpr p) (fun p' => Ok (MemberExpression o' p' c)))
  | CallExpression c arguments =>
      bind_result (cleanExpr c) (fun c' =>
      bind_result (mapM cleanExpr arguments) (fun arguments' =>
      Ok (CallExpression c' arguments')))
  | FunctionExpression i ps body =>
      bind_result (mapM cleanStmt body) (fun actions =>
      Ok (FunctionExpression i ps (spliceActions actions)))
  | ObjectExpression props =>
      bind_result (mapM cleanProp props) (fun props' =>
      Ok (ObjectExpression props'))
  | ArrayExpression els =>
      bind_result
        (mapM (fun el => match el with
                         | Some x => bind_result (cleanExpr x) (fun x' => Ok (Some x'))
                         | None => Ok None
                         end) els)
        (fun els' => Ok (ArrayExpression els'))
  end
with cleanProp (p : property) {struct p} : result property :=
  match p with
  | ObjectProperty k v =>
      bind_result (cleanExpr k) (fun k' =>
      bind_result (cleanExpr v) (fun v' => Ok (ObjectProperty k' v')))
  end
with cleanDecl (d : declarator) {struct d} : result (list declarator) :=
  bind_result (onDecl d) (fun decision =>
  match decision with
  | Some Remove => Ok []
  | Some (ReplaceWithMultiple []) => Ok []
  | Some (ReplaceWithMultiple (_ :: _)) =>
      Throw (TypeError (js "a statement cannot stand in a declarator list"))
  | None =>
      match d with
      | VariableDeclarator i (Some init) =>
          bind_result (cleanExpr init) (fun init' =>
          Ok [VariableDeclarator i (Some init')])
      | VariableDeclarator i None => Ok [d]
      end
  end)
with cleanStmt (s : stmt) {struct s} : result action :=
  bind_result (onStmt s) (fun decision =>
  match decision with
  | Some Remove => Ok Removed
  | Some (ReplaceWithMultiple nodes) => Ok (Spliced nodes)
  | None =>
      match s with
      | ExpressionStatement e =>
          bind_result (cleanExpr e) (fun e' => Ok (Kept (ExpressionStatement e')))
      | VariableDeclaration k ds =>
          bind_result (mapM cleanDecl ds) (fun kept =>
          match concat kept with
          | [] => Ok Removed
          | ds' => Ok (Kept (VariableDeclaration k ds'))
          end)
      | FunctionDeclaration i ps body =>
          bind_result (mapM cleanStmt body) (fun actions =>
          Ok (Kept (FunctionDeclaration i ps (spliceActions actions))))
      | ReturnStatement (Some e) =>
          bind_result (cleanExpr e) (fun e' => Ok (Kept (ReturnStatement (Some e'))))
      | ReturnStatement None => Ok (Kept s)
      | BlockStatement body =>
          bind_result (mapM cleanStmt body) (fun actions =>
          Ok (Kept (BlockStatement (spliceActions actions))))
      | IfStatement t c a =>
          bind_result (cleanExpr t) (fun t' =>
          bind_result (bind_result (cleanStmt c) inBodyPosition) (fun c' =>
          bind_result
            (match a with
             | Some a' => bind_result (cleanStmt a') inAlternatePosition
             | None => Ok None
             end)
            (fun a' => Ok (Kept (IfStatement t' c' a')))))
      | WhileStatement t b =>
          bind_result (cleanExpr t) (fun t' =>
          bind_result (bind_result (cleanStmt b) inBodyPosition) (fun b' =>
          Ok (Kept (WhileStatement t' b'))))
      | DoWhileStatement b t =>
          bind_result (bind_result (cleanStmt b) inBodyPosition) (fun b' =>
          bind_result (cleanExpr t) (fun t' =>
          Ok (Kept (DoWhileStatement b' t'))))
      | TryStatement block handler finalizer =>
          bind_result (mapM cleanStmt block) (fun block' =>
          bind_result
            (match handler with
             | Some h => bind_result (mapM cleanStmt h)
                                     (fun h' => Ok (Some (spliceActions h')))
             | None => Ok None
             end) (fun handler' =>
          bind_result
            (match finalizer with
             | Some f => bind_result (mapM cleanStmt f)
                                     (fun f' => Ok (Some (spliceActions f')))
             | None => Ok None
             end) (fun finalizer' =>
          Ok (Kept (TryStatement (spliceActions block') handler' finalizer')))))
      | ExportNamedDeclaration d =>
          bind_result (cleanStmt d) (fun a =>
          match a with
          | Kept d' => Ok (Kept (ExportNamedDeclaration d'))
          | Removed => Ok Removed
          | Spliced nodes => Ok (Spliced nodes)
          end)
      | ExportDefaultDeclaration d =>
          bind_result (cleanStmt d) (fun a =>
          match a with
          | Kept d' => Ok (Kept (ExportDefaultDeclaration d'))
          | Removed => Ok Removed
          | Spliced _ => cannotFit
          end)
      | ExportDefaultExpression e =>
          bind_result (cleanExpr e) (fun e' => Ok (Kept (ExportDefaultExpression e')))
      end
  end).

Definition cleanProgram (ast : program) : result program :=
  bind_result (mapM cleanStmt ast) (fun actions => Ok (spliceActions actions)).

End Cleaning.

(** The text a definition is replaced with in [comment] mode: a header
    comment, then the code between comment marks, with the comment marks
    inside it defused. *)
Definition defuseComments (code : jsstr) : jsstr :=
  replace_pair 42%N 47%N (js "*\/") (replace_pair 47%N 42%N (js "/\*") code).

Definition headerFunction : jsstr :=
  [91; 35299; 23494; 28165; 29702; 93; 32; 24050; 35299; 23494; 30340;
   20989; 25968; 58; 32]%N.

Definition headerFunctionExpression : jsstr :=
  [91; 35299; 23494; 28165; 29702; 93; 32; 24050; 35299; 23494; 30340;
   20989; 25968; 34920; 36798; 24335; 58; 32]%N.

Definition headerImmediate : jsstr :=
  [91; 35299; 23494; 28165; 29702; 93; 32; 21021; 22987; 21270; 20989;
   25968; 65288; 24050; 23436; 25104; 35299; 23494; 65289; 32]%N.

Definition commentedCode (header name code : jsstr) : jsstr :=
  js "/* " ++ header ++ name ++ js " */" ++ [10%N]
    ++ js "/*" ++ defuseComments code ++ js "*/".

(** [path.replaceWithMultiple(parser.parse(commentedCode).program.body)]
    or [path.remove()], by the mode. *)
Definition editFor (cleanupMode : cleanup_mode) (commented : jsstr)
  : result (option edit) :=
  match cleanupMode with
  | CleanupComment =>
      bind_result (parse commented) (fun body => Ok (Some (ReplaceWithMultiple body)))
  | CleanupRemove => Ok (Some Remove)
  | CleanupNone => Ok None
  end.

(** The visitors of the first traversal (de.js 1306-1360). *)
Definition visitFunctionDeclaration (functionsToCleanup : gset jsstr)
    (cleanupMode : cleanup_mode) (s : stmt) : result (option edit) :=
  match s with
  | FunctionDeclaration (Some (c :: name)) _ _ =>
      if bool_decide ((c :: name) ∈ functionsToCleanup)
      then editFor cleanupMode
             (commentedCode headerFunction (c :: name) (generate (NStmt s)))
      else Ok None
  | _ => Ok None
  end.

Definition visitVariableDeclarator (functionsToCleanup : gset jsstr)
    (cleanupMode : cleanup_mode) (d : declarator) : result (option edit) :=
  match d with
  | VariableDeclarator (c :: name) (Some (FunctionExpression _ _ _)) =>
      if bool_decide ((c :: name) ∈ functionsToCleanup)
      then editFor cleanupMode
             (commentedCode headerFunctionExpression (c :: name)
                            (generate (NDecl d)))
      else Ok None
  | _ => Ok None
  end.

(** The visitor of the second traversal (de.js 1363-1396). *)
Definition visitImmediateStatement (immediateFunctionsToCleanup : gset jsstr)
    (cleanupMode : cleanup_mode) (s : stmt) : result (option edit) :=
  match s with
  | ExpressionStatement (CallExpression callee _) =>
      if Printer.isFunctionExpression callee then
        let immediateFunctionCode := generate (NStmt s) in
        if bool_decide (immediateFunctionKey immediateFunctionCode
                          ∈ immediateFunctionsToCleanup)
        then editFor cleanupMode
               (commentedCode headerImmediate [] immediateFunctionCode)
        else Ok None
      else Ok None
  | _ => Ok None
  end.

(** The two traversals of [cleanupDecryptedFunctions]. *)
Definition cleanupTree (cleanupData' : cleanupData) (cleanupMode : cleanup_mode)
    (ast : program) : result program :=
  bind_result
    (cleanProgram
       (visitFunctionDeclaration (cleanup_functions cleanupData') cleanupMode)
       (visitVariableDeclarator (cleanup_functions cleanupData') cleanupMode)
       ast)
    (fun ast' =>
       if (0 <? size (cleanup_immediateFunctions cleanupData'))%nat
       then cleanProgram
              (visitImmediateStatement (cleanup_immediateFunctions cleanupData')
                                       cleanupMode)
              (fun _ => Ok None) ast'
       else Ok ast').

(* ===================================================================== *)
(** ** The phases on source text *)
(* ===================================================================== *)

(** [preprocessCode] (de.js 168-185): a [try] block around the
    normaliser, and a handler that returns the code.  [preprocessWith] is
    the function for any body of the [try] block. *)
Definition preprocessWith (normalise : jsstr -> result jsstr) (code : jsstr)
  : jsstr :=
  try_catch (normalise code) (fun _ => code).

Definition preprocessCode (code : jsstr) : jsstr :=
  preprocessWith (fun code' => Ok (Normalizer.processStringReverse code')) code.

(** [collectInitializationFunctionCalls] (de.js 192-281). *)
Definition collectInitializationFunctionCalls (code : jsstr) : gset jsstr :=
  try_catch
    (bind_result (parse code) (fun ast => Ok (collectInitializationCalls ast)))
    (fun _ => ∅).

(** [extractImmediateFunctions] (de.js 537-617). *)
Definition extractImmediateFunctions (code : jsstr) : immediateFunctionsData :=
  try_catch
    (bind_result (parse code) (fun ast => Ok (collectImmediateFunctions ast)))
    (fun _ => mkImmediate [] ∅).

(** [extractFunctionDefinitions] (de.js 328-472): the names and the
    [functionCodeMap]. *)
Definition extractFunctionDefinitions (code : jsstr)
  : list jsstr * list (jsstr * jsstr) :=
  try_catch
    (bind_result (parse code) (fun ast =>
       Ok (collectFunctionDefinitions
             (collectInitializationFunctionCalls code)
             (immediate_dependencies (extractImmediateFunctions code))
             ast)))
    (fun _ => ([], [])).

(** [extractActualFunctionCalls] (de.js 716-885). *)
Definition extractActualFunctionCalls (code : jsstr) : list actualCall :=
  try_catch
    (bind_result (parse code) (fun ast => Ok (collectActualCalls ast)))
    (fun _ => []).

(** [generateFunctionTestCode] (de.js 894-1032). *)
Definition generateFunctionTestCode (functionCodeMap : list (jsstr * jsstr))
    (actualCalls : list actualCall) (originalCode : jsstr) : testCode :=
  assembleTestCode functionCodeMap actualCalls
                   (extractImmediateFunctions originalCode).

(** The [try] block of [applyCallExpressionReplacements]. *)
Definition replacementBody (code : jsstr) (callExpressionMap : resultMap)
  : result jsstr :=
  bind_result (parse code) (fun ast =>
  Ok (generate (NProgram (replaceCallsProgram callExpressionMap ast)))).

(** [applyCallExpressionReplacements] (de.js 1042-1116). *)
Definition applyCallExpressionReplacements (code : jsstr)
    (callExpressionMap : resultMap) : jsstr :=
  if disableReplace cfg || (size callExpressionMap =? 0)%nat then code
  else try_catch (replacementBody code callExpressionMap) (fun _ => code).

(** The [try] block of [analyzeFunctionsForCleanup]. *)
Definition analysisBody (code : jsstr) (callExpressionMap : resultMap)
    (actualCalls : list actualCall) : Analysis unit :=
  bind (lift (parse code)) (fun ast =>
  bind (analysisBeforeGuard ast callExpressionMap actualCalls) (fun _ =>
  guardedBranch code ast)).

(** [analyzeFunctionsForCleanup] (de.js 1125-1279): the handler only
    logs, and the two sets are returned as they are. *)
Definition analyzeFunctionsForCleanup (code : jsstr)
    (callExpressionMap : resultMap) (actualCalls : list actualCall)
  : cleanupData :=
  snd (analysisBody code callExpressionMap actualCalls (mkCleanup ∅ ∅)).

(** The sets as they stand when the [try] block reaches the guard, or
    when an earlier statement of the block throws. *)
Definition setsBeforeGuard (code : jsstr)
    (callExpressionMap : resultMap) (actualCalls : list actualCall)
  : cleanupData :=
  snd (bind (lift (parse code))
            (fun ast => analysisBeforeGuard ast callExpressionMap actualCalls)
            (mkCleanup ∅ ∅)).

(** The [try] block of [cleanupDecryptedFunctions]. *)
Definition cleanupBody (code : jsstr) (cleanupData' : cleanupData)
    (cleanupMode : cleanup_mode) : result jsstr :=
  bind_result (parse code) (fun ast =>
  bind_result (cleanupTree cleanupData' cleanupMode ast) (fun ast' =>
  Ok (generate (NProgram ast')))).

(** [cleanupDecryptedFunctions] (de.js 1288-1408). *)
Definition cleanupDecryptedFunctions (code : jsstr)
    (cleanupData' : cleanupData) (cleanupMode : cleanup_mode) : jsstr :=
  if ((size (cleanup_functions cleanupData') =? 0)%nat
      && (size (cleanup_immediateFunctions cleanupData') =? 0)%nat)
     || match cleanupMode with CleanupNone => true | _ => false end
  then code
  else try_catch (cleanupBody code cleanupData' cleanupMode) (fun _ => code).

(* ===================================================================== *)
(** ** The pipeline ([processWithNewStrategy], de.js 1537-1755) *)
(* ===================================================================== *)

(** Steps 6 and 7. *)
Definition rewriteAndCleanup (processedCode : jsstr)
    (callExpressionMap : resultMap) (actualCalls : list actualCall) : jsstr :=
  let finalCode := applyCallExpressionReplacements processedCode callExpressionMap in
  match cleanupFunctions cfg with
  | CleanupNone => finalCode
  | mode =>
      let cleanupData' :=
        analyzeFunctionsForCleanup finalCode callExpressionMap actualCalls in
      let totalCleanup := (size (cleanup_functions cleanupData')
                           + size (cleanup_immediateFunctions cleanupData'))%nat in
      if (0 <? totalCleanup)%nat
      then cleanupDecryptedFunctions finalCode cleanupData' mode
      else finalCode
  end.

(** [Finished None] is [return null]: [main] then leaves the file as it
    is.  In verbose mode the function parses the code once more, outside
    any handler, when it found no call. *)
Definition processWithNewStrategy (sourceCode : jsstr)
  : outcome (option jsstr) :=
  let processedCode := preprocessCode sourceCode in
  let '(extractedFunctions, functionCodeMap) :=
    extractFunctionDefinitions processedCode in
  match extractedFunctions with
  | [] => Finished None
  | _ :: _ =>
      let actualCalls := extractActualFunctionCalls processedCode in
      match actualCalls with
      | [] =>
          if verbose cfg then
            match parse processedCode with
            | inl e => Raised e
            | inr _ => Finished None
            end
          else Finished None
      | _ :: _ =>
          let testCode' :=
            generateFunctionTestCode functionCodeMap actualCalls sourceCode in
          match executeTestCode testCode' with
          | Hangs => Hangs
          | Raised e => Raised e
          | Finished None => Finished None
          | Finished (Some callExpressionMap) =>
              Finished (Some (rewriteAndCleanup processedCode
                                                callExpressionMap actualCalls))
          end
      end
  end.

(** The text that stands in the output after [main]: what the pipeline
    returned, or the source when it returned [null]. *)
Definition revisedSource (sourceCode : jsstr) : outcome jsstr :=
  match processWithNewStrategy sourceCode with
  | Finished (Some finalCode) => Finished finalCode
  | Finished None => Finished sourceCode
  | Raised e => Raised e
  | Hangs => Hangs
  end.

End Trees.

Arguments Finished {A} a.
Arguments Raised {A} e.
Arguments Hangs {A}.

(* ===================================================================== *)
(** ** Reference instances *)
(* ===================================================================== *)

(** The default configuration, a parser for the trees of an example, an
    interpreter for helpers that are arithmetic on their arguments, and
    the trees of the scenarios. *)
Module Reference.
Import Printer.

(** The default [--intercept-pattern] is [f\d*], not anchored: it matches
    a name exactly when the name contains the letter f. *)
Definition defaultPattern (name : jsstr) : bool := includes_unit 102%N name.

Definition defaults : config := {|
  decryptStringReverse := true;
  decryptFunctionCalls := true;
  verbose := false;
  debug := false;
  traceLines := true;
  outputDebug := None;
  disableReplace := false;
  cleanupFunctions := CleanupNone;
  interceptPattern := defaultPattern;
  functionNamePattern := None;
  minArgs := 4;
  maxArgs := 6
|}.

Definition withCleanup (mode : cleanup_mode) : config := {|
  decryptStringReverse := true;
  decryptFunctionCalls := true;
  verbose := false;
  debug := false;
  traceLines := true;
  outputDebug := None;
  disableReplace := false;
  cleanupFunctions := mode;
  interceptPattern := defaultPattern;
  functionNamePattern := None;
  minArgs := 4;
  maxArgs := 6
|}.

(** The parser on the printed forms of the given trees. *)
Definition parseAmong (trees : list program) (code : jsstr) : result program :=
  match find (fun ast => jsstr_eqb (printJS (NProgram ast)) code) trees with
  | Some ast => Ok ast
  | None => Throw (SyntaxError (js "Unexpected token"))
  end.

(** The value of a string literal without hexadecimal, unicode or octal
    escapes. *)
Definition escapeValue (c : code_unit) : option jsstr :=
  if N.eqb c 110 then Some [10%N]
  else if N.eqb c 116 then Some [9%N]
  else if N.eqb c 114 then Some [13%N]
  else if N.eqb c 98 then Some [8%N]
  else if N.eqb c 102 then Some [12%N]
  else if N.eqb c 118 then Some [11%N]
  else if N.eqb c 120 || N.eqb c 117 || ((48 <=? c)%N && (c <=? 57)%N)
  then None
  else if isLineTerminator c then Some []
  else Some [c].

Fixpoint readLiteral (body : jsstr) : option jsstr :=
  match body with
  | [] => Some []
  | c :: tl =>
      if N.eqb c dquote || isLineBreak c then None
      else if N.eqb c backslash then
        match tl with
        | [] => None
        | e :: rest =>
            match escapeValue e, readLiteral rest with
            | Some units, Some value => Some (units ++ value)
            | _, _ => None
            end
        end
      else option_map (cons c) (readLiteral tl)
  end.

(** An interpreter whose context body completes and binds the helpers
    of [helpers]. *)
Definition interpreterOf
    (helpers : jsstr -> option (list jsvalue -> callOutcome)) : interpreter :=
  mkInterpreter readLiteral (fun _ _ => Completes) (fun _ _ => helpers).

(** Syntax. *)
Definition num (z : Z) : expr := NumericLiteral (inject_Z z) (Some (print_Z z)).
Definition ident (name : string) : expr := Identifier (js name).
Definition call (name : string) (arguments : list expr) : expr :=
  CallExpression (ident name) arguments.
Definition var (name : string) (init : expr) : stmt :=
  VariableDeclaration (js "var") [VariableDeclarator (js name) (Some init)].
Definition func (name : string) (params : list string) (body : list stmt) : stmt :=
  FunctionDeclaration (Some (js name)) (map js params) body.
Definition immediately (body : list stmt) : stmt :=
  ExpressionStatement (CallExpression (FunctionExpression None [] body) []).
Definition binary (op : string) (l r : expr) : expr :=
  BinaryExpression (js op) l r.

(** [function f1(x){return x*2;}] and [function f2(x){return f1(x)+1;}]
    of Scenario 2, and what they compute. *)
Definition f1_definition : stmt :=
  func "f1" ["x"]%string [ReturnStatement (Some (binary "*" (ident "x") (num 2)))].
Definition f2_definition : stmt :=
  func "f2" ["x"]%string
       [ReturnStatement (Some (binary "+" (call "f1" [ident "x"]) (num 1)))].

Definition scenario2_helpers (name : jsstr)
  : option (list jsvalue -> callOutcome) :=
  if jsstr_eqb name (js "f1") then
    Some (fun arguments => match arguments with
                           | VNumber x :: _ => Returned (VNumber (x * 2))
                           | _ => Returned VObject
                           end)
  else if jsstr_eqb name (js "f2") then
    Some (fun arguments => match arguments with
                           | VNumber x :: _ => Returned (VNumber (x * 2 + 1))
                           | _ => Returned VObject
                           end)
  else None.

(** [function f123(a,b,c,d){return a+b+c+d;}] of Scenario 1. *)
Definition f123_definition : stmt :=
  func "f123" ["a"; "b"; "c"; "d"]%string
       [ReturnStatement
          (Some (binary "+" (binary "+" (binary "+" (ident "a") (ident "b"))
                                    (ident "c")) (ident "d")))].

Definition scenario1_helpers (name : jsstr)
  : option (list jsvalue -> callOutcome) :=
  if jsstr_eqb name (js "f123") then
    Some (fun arguments =>
            match arguments with
            | [VNumber a; VNumber b; VNumber c; VNumber d] =>
                Returned (VNumber (a + b + c + d))
            | _ => Returned VObject
            end)
  else None.

End Reference.

(* ===================================================================== *)
(** ** The inputs of the scenarios *)
(* ===================================================================== *)

Module Inputs.
Import Printer Reference.

(** The paths of the calls of a function, in traversal order. *)
Definition isCallTo (name : string) (p : NodePath) : bool :=
  match path_node p with
  | NExpr (CallExpression (Identifier n) _) => jsstr_eqb n (js name)
  | _ => false
  end.

Definition callsTo (name : string) (ast : program) : list NodePath :=
  filter (isCallTo name) (traverse ast).

(** Scenario 2 with [f2(10)] in the immediately-invoked function. *)
Definition collision_source : program :=
  [f1_definition; f2_definition;
   immediately [ExpressionStatement (call "f2" [num 10])];
   var "y" (call "f2" [num 10])].

Definition collision_output : program :=
  [f1_definition; f2_definition;
   immediately [ExpressionStatement (NumericLiteral 21 None)];
   var "y" (NumericLiteral 21 None)].

(** Scenario 2 itself: [f2(3)] in the initializer prints unlike [f2(10)]
    and stays. *)
Definition scenario2_source : program :=
  [f1_definition; f2_definition;
   immediately [ExpressionStatement (call "f2" [num 3])];
   var "y" (call "f2" [num 10])].

Definition scenario2_output : program :=
  [f1_definition; f2_definition;
   immediately [ExpressionStatement (call "f2" [num 3])];
   var "y" (NumericLiteral 21 None)].

(** Scenario 6 next to a call with constant arguments. *)
Definition live_call : expr :=
  call "f123" [num 1; num 2; num 3; ident "k"].

Definition scenario6_source : program :=
  [f123_definition;
   ExpressionStatement (call "f123" [num 1; num 2; num 3; num 4]);
   var "r" live_call].

Definition scenario6_rewritten : program :=
  [f123_definition;
   ExpressionStatement (NumericLiteral 10 None);
   var "r" live_call].

Definition scenario6_output : program :=
  [ExpressionStatement (NumericLiteral 10 None); var "r" live_call].

(** [function f9(a, b, c, d) { while (true) {} }] and a call of it. *)
Definition looping_source : program :=
  [func "f9" ["a"; "b"; "c"; "d"]%string
        [WhileStatement (BooleanLiteral true) (BlockStatement [])];
   var "x" (call "f9" [num 1; num 2; num 3; num 4])].

Definition looping_helpers (name : jsstr)
  : option (list jsvalue -> callOutcome) :=
  if jsstr_eqb name (js "f9") then Some (fun _ => NeverReturns) else None.

Definition undefined_arguments : list expr :=
  [num 1; ident "undefined"; num 3; num 4].

Definition undefined_source : program :=
  [f123_definition; ExpressionStatement (call "f123" undefined_arguments)].

(** Scenario 1. *)
Definition scenario1_source : program :=
  [f123_definition; var "x" (call "f123" [num 1; num 2; num 3; num 4])].

(** [function f7(a) { return a; }] and a call of it on a string literal
    written with an escape sequence: the value has a line feed, the text
    a backslash and the letter n. *)
Definition escaped_literal : expr :=
  StringLiteral (js "a" ++ [10%N] ++ js "b") (Some (quoted (js "a\nb"))).

Definition escaped_source : program :=
  [func "f7" ["a"]%string [ReturnStatement (Some (ident "a"))];
   ExpressionStatement (call "f7" [escaped_literal])].

Definition identity_helpers (name : jsstr)
  : option (list jsvalue -> callOutcome) :=
  if jsstr_eqb name (js "f7") then
    Some (fun arguments => match arguments with
                           | v :: _ => Returned v
                           | [] => Returned VUndefined
                           end)
  else None.

(** A string literal followed by two copies of the tail: the first pass
    replaces the literal and the first tail, and what it leaves is an
    occurrence again. *)
Definition twice_reversed : jsstr :=
  quoted (js "ab") ++ Normalizer.idiom_tail ++ Normalizer.idiom_tail.

(** The tree of [obj.p(1, 2, 3, 4);], the input of Scenario 4 when [p] is
    [default]. *)
Definition memberCallStatement (object propertyName : jsstr) : program :=
  [ExpressionStatement
     (CallExpression
        (MemberExpression (Identifier object) (Identifier propertyName) false)
        [num 1; num 2; num 3; num 4])].

End Inputs.

(* ===================================================================== *)
(** * Properties *)
(* ===================================================================== *)

(** ** Unfolding the literal normaliser *)

Module NormalizerFacts.
Import Normalizer.

Lemma processStringReverse_skip c s :
  match_here (c :: s) = None ->
  processStringReverse (c :: s) = c :: processStringReverse s.
Proof.
  intros H. simp processStringReverse.
  destruct (inspect (match_here (c :: s))) as [[[g r]|] e];
    simp processStringReverse; congruence.
Qed.

Lemma processStringReverse_hit c s group rest :
  match_here (c :: s) = Some (group, rest) ->
  processStringReverse (c :: s) = replacement group ++ processStringReverse rest.
Proof.
  intros H. simp processStringReverse.
  destruct (inspect (match_here (c :: s))) as [[[g r]|] e];
    simp processStringReverse; congruence.
Qed.

Lemma span_unquoted_app s :
  s = fst (span_unquoted s) ++ snd (span_unquoted s).
Proof.
  induction s as [|c s IH]; simpl; [reflexivity|].
  destruct (N.eqb c dquote); simpl; [reflexivity|].
  destruct (span_unquoted s); simpl in *. congruence.
Qed.

(** A match spans the two quotes, the group and the tail. *)
Lemma match_here_length s group rest :
  match_here s = Some (group, rest) ->
  length s = 2 + length group + length idiom_tail + length rest.
Proof.
  unfold match_here. destruct s as [|c s]; [congruence|].
  destruct (N.eqb c dquote); [|congruence].
  pose proof (span_unquoted_app s) as Happ.
  destruct (span_unquoted s) as [g [|q after]]; [congruence|].
  destruct (strip_prefix idiom_tail after) as [r|] eqn:Hp; [|congruence].
  intros [= <- <-]. apply strip_prefix_length in Hp.
  cbn [fst snd] in Happ. rewrite Happ. cbn [length].
  rewrite length_app. cbn [length]. lia.
Qed.

Lemma replacement_length group : length (replacement group) = 2 + length group.
Proof.
  unfold replacement. cbn [length]. rewrite length_app, length_rev.
  cbn [length]. lia.
Qed.

(** The normaliser never lengthens a text. *)
Lemma processStringReverse_length s :
  length (processStringReverse s) <= length s.
Proof.
  remember (length s) as n eqn:Hn. revert s Hn.
  induction n as [n IH] using lt_wf_ind. intros [|c s] ->; [simp processStringReverse; simpl; lia|].
  destruct (match_here (c :: s)) as [[g r]|] eqn:Hm.
  - rewrite (processStringReverse_hit _ _ _ _ Hm).
    apply match_here_length in Hm.
    rewrite length_app, replacement_length.
    assert (length (processStringReverse r) <= length r)
      by (apply (IH (length r)); [lia | reflexivity]).
    lia.
  - rewrite (processStringReverse_skip _ _ Hm). cbn [length].
    assert (length (processStringReverse s) <= length s)
      by (apply (IH (length s)); [cbn [length]; lia | reflexivity]).
    lia.
Qed.

Lemma idiom_tail_length : length idiom_tail = 29.
Proof. reflexivity. Qed.

(** It shortens every text that holds an occurrence. *)
Lemma processStringReverse_shrinks s :
  has_idiom s = true -> length (processStringReverse s) < length s.
Proof.
  induction s as [|c s IH]; [discriminate|].
  cbn [has_idiom]. destruct (match_here (c :: s)) as [[g r]|] eqn:Hm.
  - intros _. rewrite (processStringReverse_hit _ _ _ _ Hm).
    apply match_here_length in Hm.
    rewrite length_app, replacement_length.
    pose proof (processStringReverse_length r).
    rewrite idiom_tail_length in Hm. lia.
  - intros H. rewrite (processStringReverse_skip _ _ Hm). cbn [length].
    specialize (IH H). lia.
Qed.

(** It copies a text that holds none. *)
Lemma processStringReverse_copies s :
  has_idiom s = false -> processStringReverse s = s.
Proof.
  induction s as [|c s IH]; [intros _; simp processStringReverse; reflexivity|].
  cbn [has_idiom]. destruct (match_here (c :: s)) as [[g r]|] eqn:Hm;
    [discriminate|].
  intros H. rewrite (processStringReverse_skip _ _ Hm), (IH H). reflexivity.
Qed.

Lemma strip_prefix_app p s r : strip_prefix p s = Some r -> s = p ++ r.
Proof.
  revert s; induction p as [|c p IH]; intros s H.
  - destruct s; cbn in H; injection H as <-; reflexivity.
  - destruct s as [|d s]; cbn in H; [discriminate|].
    destruct (N.eqb c d) eqn:Hcd; [|discriminate].
    apply N.eqb_eq in Hcd. subst d. cbn. f_equal. apply IH. exact H.
Qed.

Lemma span_unquoted_run s :
  Forall (fun c => c <> dquote) (fst (span_unquoted s))
  /\ match snd (span_unquoted s) with
     | [] => True
     | q :: _ => q = dquote
     end.
Proof.
  induction s as [|c s IH]; cbn; [split; [constructor|exact I]|].
  destruct (N.eqb c dquote) eqn:Hc; cbn.
  - apply N.eqb_eq in Hc. split; [constructor|exact Hc].
  - apply N.eqb_neq in Hc. destruct (span_unquoted s) as [run rest].
    cbn in *. destruct IH as [IH1 IH2].
    split; [constructor; assumption|exact IH2].
Qed.

(** An occurrence at the head of a text: a quote, a run without quotes,
    a quote, the tail. *)
Lemma match_here_shape s group rest :
  match_here s = Some (group, rest) ->
  s = dquote :: group ++ dquote :: idiom_tail ++ rest
  /\ Forall (fun c => c <> dquote) group.
Proof.
  unfold match_here. destruct s as [|c s]; [congruence|].
  destruct (N.eqb c dquote) eqn:Hc; [|congruence].
  apply N.eqb_eq in Hc. subst c.
  pose proof (span_unquoted_app s) as Happ.
  pose proof (span_unquoted_run s) as [Hrun Hq].
  destruct (span_unquoted s) as [g [|q after]]; [congruence|].
  destruct (strip_prefix idiom_tail after) as [r|] eqn:Hp; [|congruence].
  intros [= <- <-]. cbn [fst snd] in *. subst q.
  apply strip_prefix_app in Hp. subst after.
  split; [rewrite Happ at 1; reflexivity|exact Hrun].
Qed.

(** A pass only copies and replaces occurrences. *)
Lemma processStringReverse_rewrites s : rewrites_to s (processStringReverse s).
Proof.
  remember (length s) as n eqn:Hn. revert s Hn.
  induction n as [n IH] using lt_wf_ind.
  intros [|c s] ->; [simp processStringReverse; constructor|].
  destruct (match_here (c :: s)) as [[g r]|] eqn:Hm.
  - rewrite (processStringReverse_hit _ _ _ _ Hm).
    pose proof (match_here_length _ _ _ Hm) as Hlen.
    apply match_here_shape in Hm. destruct Hm as [Heq Hrun].
    rewrite Heq. constructor; [exact Hrun|].
    apply (IH (length r)); [lia|reflexivity].
  - rewrite (processStringReverse_skip _ _ Hm).
    constructor; [exact Hm|].
    apply (IH (length s)); [cbn [length]; lia|reflexivity].
Qed.

Lemma processStringReverse_fixed_iff s :
  processStringReverse s = s <-> has_idiom s = false.
Proof.
  split; [|apply processStringReverse_copies].
  intros Heq. destruct (has_idiom s) eqn:H; [|reflexivity].
  apply processStringReverse_shrinks in H. rewrite Heq in H. lia.
Qed.

End NormalizerFacts.

Import Normalizer NormalizerFacts Inputs.

(* ===================================================================== *)
(** ** The literal normaliser is idempotent only on idiom-free results *)
(* ===================================================================== *)

Example twice_reversed_first_pass :
  processStringReverse twice_reversed = Printer.quoted (js "ba") ++ idiom_tail.
Proof. reflexivity. Qed.

Example twice_reversed_second_pass :
  processStringReverse (processStringReverse twice_reversed)
  = Printer.quoted (js "ab").
Proof. reflexivity. Qed.

(** C7, counterexample: the normaliser is not idempotent.  On
    [twice_reversed] the second application changes the result of the
    first. *)
Lemma normalizer_not_idempotent :
  ~ (forall S : jsstr,
       processStringReverse (processStringReverse S) = processStringReverse S).
Proof.
  intros H. specialize (H twice_reversed).
  rewrite twice_reversed_second_pass, twice_reversed_first_pass in H.
  apply (f_equal (@length code_unit)) in H. vm_compute in H. discriminate.
Qed.

(** C7, as amended: a pass of the normaliser copies the text and
    replaces occurrences of the idiom, nothing else; it returns a text
    unchanged exactly when the text holds no occurrence; so applying it
    twice equals applying it once exactly when the first result holds no
    occurrence. *)
Theorem normalizer_idempotent_iff_result_idiom_free (S : jsstr) :
  rewrites_to S (processStringReverse S)
  /\ (processStringReverse S = S <-> has_idiom S = false)
  /\ (processStringReverse (processStringReverse S) = processStringReverse S
      <-> has_idiom (processStringReverse S) = false).
Proof.
  split; [apply processStringReverse_rewrites|].
  split; apply processStringReverse_fixed_iff.
Qed.

(* ===================================================================== *)
(** ** The rewriter and the argument-count window *)
(* ===================================================================== *)

Section RewriterFacts.

Variable generate : node -> jsstr.
Variable cfg : config.

(** [shouldInterceptFunction] tests the two patterns and nothing else. *)
Lemma shouldInterceptFunction_iff name argsCount :
  shouldInterceptFunction cfg name argsCount = true
  <-> interceptPattern cfg name = true
      /\ (forall pattern, functionNamePattern cfg = Some pattern ->
                          pattern name = true).
Proof.
  unfold shouldInterceptFunction.
  destruct (functionNamePattern cfg) as [pattern|].
  - destruct (pattern name) eqn:Hp, (interceptPattern cfg name) eqn:Hi; cbn.
    + split; [|reflexivity]. intros _. split; [reflexivity|].
      intros q [= <-]. exact Hp.
    + split; [discriminate|]. intros [Hi' _]. discriminate.
    + split; [discriminate|]. intros [_ Hf].
      specialize (Hf _ eq_refl). congruence.
    + split; [discriminate|]. intros [Hi' _]. discriminate.
  - destruct (interceptPattern cfg name); cbn.
    + split; [|reflexivity]. intros _. split; [reflexivity|]. discriminate.
    + split; [discriminate|]. intros [Hi' _]. discriminate.
Qed.

Lemma jsstr_eqb_true a b : jsstr_eqb a b = true <-> a = b.
Proof. unfold jsstr_eqb. apply bool_decide_eq_true. Qed.

Lemma jsstr_eqb_false a b : jsstr_eqb a b = false <-> a <> b.
Proof. unfold jsstr_eqb. apply bool_decide_eq_false. Qed.

Lemma replacementFor_iff (m : resultMap) (e literal : expr) :
  replacementFor generate cfg m e = Some literal
  <-> exists name arguments value,
        e = CallExpression (Identifier name) arguments
        /\ name <> js "__interceptFunctionCall"
        /\ interceptPattern cfg name = true
        /\ (forall pattern, functionNamePattern cfg = Some pattern ->
                            pattern name = true)
        /\ m !! generate (NExpr e) = Some value
        /\ literalFor value = Some literal.
Proof.
  split.
  - destruct e as [| | | | | | | | |callee arguments| | |]; try discriminate.
    destruct callee as [name| | | | | | | | | | | |]; try discriminate.
    cbn [replacementFor].
    destruct (jsstr_eqb name (js "__interceptFunctionCall")) eqn:Hn;
      [discriminate|].
    destruct (shouldInterceptFunction cfg name (length arguments)) eqn:Hs;
      [|discriminate].
    destruct (m !! generate (NExpr (CallExpression (Identifier name) arguments)))
      as [value|] eqn:Hm; [|discriminate].
    intros Hl. exists name, arguments, value.
    apply jsstr_eqb_false in Hn. apply shouldInterceptFunction_iff in Hs.
    destruct Hs as [Hi Hf]. repeat split; assumption.
  - intros (name & arguments & value & -> & Hn & Hi & Hf & Hm & Hl).
    cbn [replacementFor].
    apply jsstr_eqb_false in Hn. rewrite Hn.
    assert (Hs : shouldInterceptFunction cfg name (length arguments) = true)
      by (apply shouldInterceptFunction_iff; split; assumption).
    rewrite Hs, Hm. exact Hl.
Qed.

End RewriterFacts.

(** C4, counterexample: with the default window of four to six arguments,
    the call [f2(10)] has one argument and is replaced by [21]. *)
Lemma window_does_not_gate_rewriting :
  ~ (forall (generate : node -> jsstr) (cfg : config) (m : resultMap)
            (callee : expr) (arguments : list expr),
        (Z.of_nat (length arguments) < minArgs cfg
         \/ maxArgs cfg < Z.of_nat (length arguments))%Z ->
        replaceCalls generate cfg m (CallExpression callee arguments)
        = CallExpression (replaceCalls generate cfg m callee)
                         (map (replaceCalls generate cfg m) arguments)).
Proof.
  intros H.
  specialize (H Printer.printJS Reference.defaults
                (<[js "f2(10)" := VNumber 21]> ∅)
                (Reference.ident "f2") [Reference.num 10]).
  assert (Hw : (Z.of_nat (length [Reference.num 10]) < minArgs Reference.defaults
                \/ maxArgs Reference.defaults
                   < Z.of_nat (length [Reference.num 10]))%Z)
    by (left; vm_compute; reflexivity).
  specialize (H Hw). vm_compute in H. discriminate.
Qed.

(** C4, as amended: the rewriter replaces a call exactly when its callee
    is an identifier other than [__interceptFunctionCall] that the
    intercept pattern and, when set, the name filter match, and the
    printed call is a key of the result map with a value that has a
    literal; every other call is kept and its callee and arguments are
    rewritten in turn.  The number of arguments and the window
    [minArgs]..[maxArgs] take no part in it. *)
Theorem rewriter_replaces_exactly_matched_keys
    (generate : node -> jsstr) (cfg : config) (m : resultMap)
    (callee : expr) (arguments : list expr) :
  let e := CallExpression callee arguments in
  (forall literal,
      replacementFor generate cfg m e = Some literal
      <-> exists name value,
            callee = Identifier name
            /\ name <> js "__interceptFunctionCall"
            /\ interceptPattern cfg name = true
            /\ (forall pattern, functionNamePattern cfg = Some pattern ->
                                pattern name = true)
            /\ m !! generate (NExpr e) = Some value
            /\ literalFor value = Some literal)
  /\ replaceCalls generate cfg m e
     = match replacementFor generate cfg m e with
       | Some literal => literal
       | None => CallExpression (replaceCalls generate cfg m callee)
                                (map (replaceCalls generate cfg m) arguments)
       end.
Proof.
  cbv zeta. split; [|reflexivity].
  intros literal. rewrite replacementFor_iff. split.
  - intros (name & arguments' & value & [= -> <-] & H).
    exists name, value. split; [reflexivity|exact H].
  - intros (name & value & -> & H).
    exists name, arguments, value. split; [reflexivity|exact H].
Qed.

(* ===================================================================== *)
(** ** The reserved-word guard *)
(* ===================================================================== *)

Section ExtractorFacts.

Variable generate : node -> jsstr.
Variable cfg : config.

Lemma truthy_name_Some o name : truthy_name o = Some name -> o = Some name.
Proof. destruct o as [[|c s]|]; cbn; congruence. Qed.

(** An entry stored by a visitor is for the call at its path, and the
    name it carries is the one [extractFunctionName] gave. *)
Lemma recordCall_entry target text c :
  In c (recordCall cfg target text) ->
  path c = target
  /\ exists callee arguments,
       path_node target = NExpr (CallExpression callee arguments)
       /\ extractFunctionName callee = Some (funcName c)
       /\ isInitializationFunction target = false
       /\ allConstants (extractConstantArguments arguments) = true.
Proof.
  unfold recordCall.
  destruct (path_node target) as [e| | | |]; try contradiction.
  destruct e as [| | | | | | | | |callee arguments| | |]; try contradiction.
  destruct (truthy_name (extractFunctionName callee)) as [name|] eqn:Hn;
    [|contradiction].
  destruct (shouldInterceptFunction cfg name (length arguments));
    [|contradiction].
  destruct (isInitializationFunction target) eqn:Hi; [contradiction|].
  destruct (allConstants (extractConstantArguments arguments)) eqn:Ha;
    [|contradiction].
  intros [<-|[]]. cbn. split; [reflexivity|].
  exists callee, arguments. apply truthy_name_Some in Hn. auto.
Qed.

Lemma visitActualCalls_entry p c :
  In c (visitActualCalls generate cfg p) ->
  exists callee arguments,
    path_node (path c) = NExpr (CallExpression callee arguments)
    /\ extractFunctionName callee = Some (funcName c)
    /\ isInitializationFunction (path c) = false
    /\ allConstants (extractConstantArguments arguments) = true.
Proof.
  assert (Hrec : forall target text,
             In c (recordCall cfg target text) ->
             exists callee arguments,
               path_node (path c) = NExpr (CallExpression callee arguments)
               /\ extractFunctionName callee = Some (funcName c)
               /\ isInitializationFunction (path c) = false
               /\ allConstants (extractConstantArguments arguments) = true).
  { intros target text H. apply recordCall_entry in H.
    destruct H as [-> H]. exact H. }
  unfold visitActualCalls.
  destruct (path_node p) as [e|pr|d| |] eqn:Hp; try contradiction.
  - destruct e; try contradiction.
    + destruct e2; try contradiction. apply Hrec.
    + apply Hrec.
    + intros H. apply in_flat_map in H. destruct H as (el & _ & H).
      destruct el as [x|]; [|contradiction].
      destruct x; try contradiction. revert H. apply Hrec.
  - destruct pr as [k v]. destruct v; try contradiction. apply Hrec.
  - destruct d as [i [init|]]; [|contradiction].
    destruct init; try contradiction. apply Hrec.
Qed.

(** The arguments that count as constants are the literal ones. *)
Lemma extractConstantArgument_defined arg :
  is_defined (extractConstantArgument arg) = isLiteral arg.
Proof.
  destruct arg as [name| | | | |operator argument| | | | | | |];
    try reflexivity.
  - unfold extractConstantArgument, isLiteral.
    destruct (jsstr_eqb name (js "undefined")); reflexivity.
  - destruct argument; try reflexivity.
    unfold extractConstantArgument, isLiteral.
    destruct (jsstr_eqb operator (js "-")); reflexivity.
Qed.

Lemma allConstants_iff arguments :
  allConstants (extractConstantArguments arguments) = forallb isLiteral arguments.
Proof.
  unfold allConstants, extractConstantArguments.
  induction arguments as [|arg arguments IH]; [reflexivity|].
  cbn [map forallb]. rewrite extractConstantArgument_defined, IH. reflexivity.
Qed.

(** A call that the traversal meets is stored by the [CallExpression]
    visitor when its callee has a name that the patterns match, it lies
    outside every initializer context and its arguments are literals. *)
Lemma literal_call_is_extracted ast p callee arguments name :
  In p (traverse ast) ->
  path_node p = NExpr (CallExpression callee arguments) ->
  truthy_name (extractFunctionName callee) = Some name ->
  shouldInterceptFunction cfg name (length arguments) = true ->
  isInitializationFunction p = false ->
  forallb isLiteral arguments = true ->
  In (mkCall (generate (path_node p)) name
             (extractConstantArguments arguments) p)
     (collectActualCalls generate cfg ast).
Proof.
  intros Hp Hnode Hname Hmatch Hinit Hlit.
  unfold collectActualCalls. apply in_flat_map. exists p. split; [exact Hp|].
  unfold visitActualCalls, path_toString. rewrite Hnode.
  unfold recordCall. rewrite Hnode, Hname, Hmatch, Hinit.
  rewrite allConstants_iff, Hlit. left. reflexivity.
Qed.

Lemma collectActualCalls_entry ast c :
  In c (collectActualCalls generate cfg ast) ->
  exists callee arguments,
    path_node (path c) = NExpr (CallExpression callee arguments)
    /\ extractFunctionName callee = Some (funcName c)
    /\ isInitializationFunction (path c) = false
    /\ allConstants (extractConstantArguments arguments) = true.
Proof.
  unfold collectActualCalls. intros H. apply in_flat_map in H.
  destruct H as (p & _ & H). revert H. apply visitActualCalls_entry.
Qed.

End ExtractorFacts.

Lemma isReserved_iff propertyName :
  isReserved propertyName = true <-> In propertyName reservedKeywords.
Proof.
  unfold isReserved. rewrite existsb_exists. split.
  - intros (k & Hk & Heq). apply jsstr_eqb_true in Heq. subst. exact Hk.
  - intros H. exists propertyName. split; [exact H|].
    apply jsstr_eqb_true. reflexivity.
Qed.

Lemma collectFunctionDefinitions_none generate cfg a b ast :
  definitions ast = [] ->
  collectFunctionDefinitions generate cfg a b ast = ([], []).
Proof.
  intros H. unfold collectFunctionDefinitions, supplementDefinitions,
    matchingDefinitions. rewrite H. reflexivity.
Qed.

(** C6: a call whose callee is a member access with a reserved word as
    property name gets no callee name; no entry of the extracted calls is
    for it, and the driver has one block per entry and no other; the
    rewriter keeps it as a call; and the pipeline returns the source of
    Scenario 4 unchanged. *)
Theorem reserved_word_callee_is_never_processed
    (generate : node -> jsstr) (cfg : config) (vm : interpreter)
    (parse : jsstr -> result program)
    (object : expr) (propertyName : jsstr) (computed : bool)
    (arguments : list expr) :
  In propertyName reservedKeywords ->
  let callee := MemberExpression object (Identifier propertyName) computed in
  let e := CallExpression callee arguments in
  extractFunctionName callee = None
  /\ (forall ast c, In c (collectActualCalls generate cfg ast) ->
                    path_node (path c) <> NExpr e)
  /\ (forall functionCodeMap actualCalls originalCode,
         test_driver (generateFunctionTestCode generate cfg parse
                        functionCodeMap actualCalls originalCode)
         = map driverLineFor actualCalls)
  /\ (forall m, replacementFor generate cfg m e = None
                /\ replaceCalls generate cfg m e
                   = CallExpression (replaceCalls generate cfg m callee)
                                    (map (replaceCalls generate cfg m) arguments))
  /\ (forall source objectName,
         parse (preprocessCode source)
         = Ok (memberCallStatement objectName propertyName) ->
         revisedSource generate cfg vm parse source = Finished source).
Proof.
  intros Hreserved. cbv zeta. apply isReserved_iff in Hreserved.
  assert (Hname : extractFunctionName
                    (MemberExpression object (Identifier propertyName) computed)
                  = None) by (cbn [extractFunctionName]; rewrite Hreserved; reflexivity).
  split; [exact Hname|]. split; [|split; [|split]].
  - intros ast c Hc Heq. apply collectActualCalls_entry in Hc.
    destruct Hc as (callee' & arguments' & Hnode & Hsome & _).
    rewrite Hnode in Heq. injection Heq as -> _. congruence.
  - reflexivity.
  - intros m. split; reflexivity.
  - intros source objectName Hparse.
    unfold revisedSource, processWithNewStrategy, extractFunctionDefinitions.
    rewrite Hparse. cbn [bind_result Ok try_catch].
    rewrite collectFunctionDefinitions_none by reflexivity.
    reflexivity.
Qed.

(** C6, witness: the property [default], and the source text of
    Scenario 4 under the default configuration. *)
Lemma reserved_word_callee_default :
  In (js "default") reservedKeywords
  /\ revisedSource Printer.printJS Reference.defaults
       (Reference.interpreterOf (fun _ => None))
       (Reference.parseAmong [memberCallStatement (js "obj") (js "default")])
       (js "obj.default(1, 2, 3, 4);")
     = Finished (js "obj.default(1, 2, 3, 4);").
Proof.
  assert (H : In (js "default") reservedKeywords) by (left; reflexivity).
  split; [exact H|].
  pose proof (reserved_word_callee_is_never_processed
                Printer.printJS Reference.defaults
                (Reference.interpreterOf (fun _ => None))
                (Reference.parseAmong
                   [memberCallStatement (js "obj") (js "default")])
                (Identifier (js "obj")) (js "default") false [] H) as Hguard.
  cbv zeta in Hguard. destruct Hguard as (_ & _ & _ & _ & Hscenario).
  apply (Hscenario _ (js "obj")). vm_compute. reflexivity.
Defined.

(* ===================================================================== *)
(** ** The keys of the result map *)
(* ===================================================================== *)

Section HarnessFacts.

Variable generate : node -> jsstr.
Variable cfg : config.
Variable vm : interpreter.
Variable parse : jsstr -> result program.

(** A key of the map after the driver was in the map before, or is the
    value of the key literal of a driver block. *)
Lemma runDriver_keys
    (helpers : jsstr -> option (list jsvalue -> callOutcome))
    (lines : list driverLine) (before after : resultMap) (k : jsstr) :
  runDriver vm helpers lines before = Some after ->
  is_Some (after !! k) ->
  is_Some (before !! k)
  \/ exists l, In l lines /\ literalValue vm (line_key l) = Some k.
Proof.
  revert before. induction lines as [|l lines IH]; intros before Hrun Hk.
  - injection Hrun as <-. left. exact Hk.
  - cbn [runDriver] in Hrun.
    assert (Hskip : runDriver vm helpers lines before = Some after ->
                    is_Some (before !! k)
                    \/ exists l', In l' (l :: lines)
                                  /\ literalValue vm (line_key l') = Some k).
    { intros H. destruct (IH _ H Hk) as [Hb|(l' & Hin & Hl)];
        [left; exact Hb|right; exists l'; split; [right; exact Hin|exact Hl]]. }
    destruct (helpers (line_funcName l)) as [func|]; [|exact (Hskip Hrun)].
    destruct (literalValue vm (line_key l)) as [callStr|] eqn:Hlit;
      [|exact (Hskip Hrun)].
    destruct (func (line_args l)) as [value|e|];
      [|exact (Hskip Hrun)|discriminate].
    destruct (IH _ Hrun Hk) as [Hb|(l' & Hin & Hl)].
    + destruct (decide (callStr = k)) as [->|Hne].
      * right. exists l. split; [left; reflexivity|exact Hlit].
      * left. rewrite lookup_insert_ne in Hb by exact Hne. exact Hb.
    + right. exists l'. split; [right; exact Hin|exact Hl].
Qed.

(** Every key of the result map of a run is the value of the key literal
    made from the stored text of an extracted call: the text with a
    backslash before each double quote, read as a string literal. *)
Lemma result_keys_come_from_stored_text
    (functionCodeMap : list (jsstr * jsstr)) (actualCalls : list actualCall)
    (originalCode : jsstr) (results : resultMap) (k : jsstr) :
  executeTestCode vm
    (generateFunctionTestCode generate cfg parse functionCodeMap actualCalls
                              originalCode)
  = Finished (Some results) ->
  is_Some (results !! k) ->
  exists c, In c actualCalls
            /\ literalValue vm (replace_unit dquote [backslash; dquote]
                                             (callExpression c)) = Some k.
Proof.
  unfold executeTestCode, runInContext. intros Hrun Hk.
  destruct (negb (forallb (driverLineParses vm) _)); [discriminate|].
  destruct (contextBody vm _ _); try discriminate.
  destruct (runDriver vm _ _ _) as [after|] eqn:Hdriver; [|discriminate].
  injection Hrun as <-.
  destruct (runDriver_keys _ _ _ _ _ Hdriver Hk) as [Hempty|(l & Hin & Hl)].
  - rewrite lookup_empty in Hempty. destruct Hempty as [v Hv]. discriminate.
  - cbn in Hin. apply in_map_iff in Hin. destruct Hin as (c & <- & Hc).
    exists c. split; [exact Hc|exact Hl].
Qed.

End HarnessFacts.

(* ===================================================================== *)
(** ** The guarded branch of the cleanup analyzer *)
(* ===================================================================== *)

(** C9: whatever the sets hold when the guard is read, reading it throws
    the [ReferenceError] of an unbound identifier and leaves the sets as
    they are, so the body of the branch does not run; and
    [analyzeFunctionsForCleanup] returns, for every input, the sets
    accumulated before the guard. *)
Theorem guarded_branch_never_runs
    (generate : node -> jsstr) (cfg : config)
    (parse : jsstr -> result program) (code : jsstr)
    (callExpressionMap : resultMap) (actualCalls : list actualCall) :
  (forall ast sets,
      guardedBranch generate code ast sets
      = (Throw (ReferenceError (js "shouldCleanupImmediateFunctions")), sets))
  /\ analyzeFunctionsForCleanup generate cfg parse code
                                callExpressionMap actualCalls
     = setsBeforeGuard generate cfg parse code callExpressionMap actualCalls.
Proof.
  assert (Hguard : forall ast sets,
             guardedBranch generate code ast sets
             = (Throw (ReferenceError (js "shouldCleanupImmediateFunctions")),
                sets)) by reflexivity.
  split; [exact Hguard|].
  unfold analyzeFunctionsForCleanup, setsBeforeGuard, analysisBody, bind, lift.
  destruct (parse code) as [e|ast]; [reflexivity|].
  destruct (analysisBeforeGuard generate cfg ast callExpressionMap actualCalls
                                (mkCleanup ∅ ∅)) as [[e|[]] sets];
    [reflexivity|].
  rewrite Hguard. reflexivity.
Qed.

(** An immediately-invoked function of the tree stops the analysis before
    the guard: the inner traversal is started without a scope. *)
Example analysis_stops_at_immediate_function :
  analysisBeforeGuard Printer.printJS Reference.defaults
    [Reference.immediately []] ∅ [] (mkCleanup ∅ ∅)
  = (Throw (missingScope (NExpr (FunctionExpression None [] []))),
     mkCleanup ∅ ∅).
Proof. vm_compute. reflexivity. Qed.

(* ===================================================================== *)
(** ** A failing phase returns its input *)
(* ===================================================================== *)

(** C10: when the [try] block of a phase throws, the phase returns the
    code it was given; and what a phase returns is either that code or
    the printed form of the tree after the whole traversal. *)
Theorem failing_phase_returns_its_input
    (generate : node -> jsstr) (cfg : config)
    (parse : jsstr -> result program) :
  (forall normalise code e,
      normalise code = Throw e -> preprocessWith normalise code = code)
  /\ (forall code m e,
         replacementBody generate cfg parse code m = Throw e ->
         applyCallExpressionReplacements generate cfg parse code m = code)
  /\ (forall code sets mode e,
         cleanupBody generate parse code sets mode = Throw e ->
         cleanupDecryptedFunctions generate parse code sets mode = code)
  /\ (forall code, preprocessCode code = processStringReverse code)
  /\ (forall code m,
         applyCallExpressionReplacements generate cfg parse code m = code
         \/ exists ast,
              parse code = Ok ast
              /\ applyCallExpressionReplacements generate cfg parse code m
                 = generate (NProgram (replaceCallsProgram generate cfg m ast)))
  /\ (forall code sets mode,
         cleanupDecryptedFunctions generate parse code sets mode = code
         \/ exists ast ast',
              parse code = Ok ast
              /\ cleanupTree generate parse sets mode ast = Ok ast'
              /\ cleanupDecryptedFunctions generate parse code sets mode
                 = generate (NProgram ast')).
Proof.
  repeat split.
  - intros normalise code e H. unfold preprocessWith. rewrite H. reflexivity.
  - intros code m e H. unfold applyCallExpressionReplacements.
    rewrite H. destruct (_ || _); reflexivity.
  - intros code sets mode e H. unfold cleanupDecryptedFunctions.
    rewrite H. destruct (_ || _); reflexivity.
  - intros code m. unfold applyCallExpressionReplacements, replacementBody.
    destruct (_ || _); [left; reflexivity|].
    destruct (parse code) as [e|ast]; [left; reflexivity|].
    right. exists ast. split; reflexivity.
  - intros code sets mode. unfold cleanupDecryptedFunctions, cleanupBody.
    destruct (_ || _); [left; reflexivity|].
    destruct (parse code) as [e|ast]; [left; reflexivity|].
    cbn [bind_result].
    destruct (cleanupTree generate parse sets mode ast) as [e|ast'] eqn:Hc;
      [left; reflexivity|].
    right. exists ast, ast'. split; [reflexivity|].
    split; [exact Hc|reflexivity].
Qed.

(** C10, witness: a source that does not parse goes through the
    replacement and the cleanup unchanged. *)
Lemma failing_phase_unparsable_source :
  applyCallExpressionReplacements Printer.printJS Reference.defaults
    (Reference.parseAmong []) (js "var x = ;") (<[js "f2(10)" := VNumber 21]> ∅)
  = js "var x = ;"
  /\ cleanupDecryptedFunctions Printer.printJS (Reference.parseAmong [])
       (js "var x = ;") (mkCleanup {[js "f2"]} ∅) CleanupRemove
     = js "var x = ;".
Proof.
  pose proof (failing_phase_returns_its_input
                Printer.printJS Reference.defaults (Reference.parseAmong []))
    as (_ & Hreplace & Hcleanup & _).
  split.
  - apply (Hreplace _ _ (SyntaxError (js "Unexpected token"))). reflexivity.
  - apply (Hcleanup _ _ _ (SyntaxError (js "Unexpected token"))). reflexivity.
Defined.

(* ===================================================================== *)
(** ** Inputs on which the code departs from the specification *)
(* ===================================================================== *)

Module Departures.
Import Printer Reference Inputs.

(** C1, on the failing input: the first call of [f2] lies in an
    initializer context and the second does not; the extractor stores the
    second only; the rewriter, which never asks for the context, replaces
    both, because they print alike. *)
Theorem initializer_call_rewritten_when_key_recurs :
  map isInitializationFunction (callsTo "f2" collision_source) = [true; false]
  /\ map (fun c => (callExpression c, isInitializationFunction (path c)))
         (collectActualCalls printJS defaults collision_source)
     = [(js "[object Object]", false); (js "f2(10)", false)]
  /\ processWithNewStrategy printJS defaults (interpreterOf scenario2_helpers)
       (parseAmong [collision_source]) (printJS (NProgram collision_source))
     = Finished (Some (printJS (NProgram collision_output)))
  /\ callsTo "f2" collision_output = [].
Proof. vm_compute. repeat split; reflexivity. Qed.

Example scenario2_keeps_initializer_call :
  processWithNewStrategy printJS defaults (interpreterOf scenario2_helpers)
    (parseAmong [scenario2_source]) (printJS (NProgram scenario2_source))
  = Finished (Some (printJS (NProgram scenario2_output))).
Proof. vm_compute. reflexivity. Qed.

(** C2, on the failing input: after the rewrite one call of [f123]
    remains and one call was extracted; the analyzer compares the two
    counts with [<=] and marks [f123]; in [remove] mode the definition
    goes and the call stays. *)
Theorem helper_deleted_with_live_reference :
  let parse := parseAmong [scenario6_source; scenario6_rewritten] in
  let actualCalls := collectActualCalls printJS defaults scenario6_source in
  let callExpressionMap : resultMap := {[js "f123(1, 2, 3, 4)" := VNumber 10]} in
  map callExpression actualCalls = [js "f123(1, 2, 3, 4)"]
  /\ length (callsTo "f123" scenario6_rewritten) = 1
  /\ cleanup_functions
       (analyzeFunctionsForCleanup printJS (withCleanup CleanupRemove) parse
          (printJS (NProgram scenario6_rewritten)) callExpressionMap actualCalls)
     = {[js "f123"]}
  /\ processWithNewStrategy printJS (withCleanup CleanupRemove)
       (interpreterOf scenario1_helpers) parse
       (printJS (NProgram scenario6_source))
     = Finished (Some (printJS (NProgram scenario6_output)))
  /\ definitions scenario6_output = []
  /\ length (callsTo "f123" scenario6_output) = 1.
Proof. vm_compute. repeat split; reflexivity. Qed.

(** C3, on the failing input: the pipeline does not return.  The timer
    set before the call cannot run while the interpreter does; the
    [timeout] option of [vm.runInContext], which would stop it, is not
    passed. *)
Theorem looping_helper_hangs_the_pipeline :
  let vm := interpreterOf looping_helpers in
  let parse := parseAmong [looping_source] in
  let source := printJS (NProgram looping_source) in
  let testCode' :=
    generateFunctionTestCode printJS defaults parse
      (snd (extractFunctionDefinitions printJS defaults parse source))
      (extractActualFunctionCalls printJS defaults parse source) source in
  processWithNewStrategy printJS defaults vm parse source = Hangs
  /\ executeTestCode vm testCode' = Hangs
  /\ runInContext vm testCode' ∅ (Some 30000%N) = VmTimedOut.
Proof. vm_compute. repeat split; reflexivity. Qed.

(** C5, on the failing input: the call is outside every initializer
    context and its arguments are three numbers and [undefined]; the
    captured value of the second argument is the value that marks a
    non-constant, and the call is not stored. *)
Theorem explicit_undefined_argument_rejected :
  map isInitializationFunction (callsTo "f123" undefined_source) = [false]
  /\ extractConstantArguments undefined_arguments
     = [VNumber 1; VUndefined; VNumber 3; VNumber 4]
  /\ allConstants (extractConstantArguments undefined_arguments) = false
  /\ collectActualCalls printJS defaults undefined_source = []
  /\ processWithNewStrategy printJS defaults (interpreterOf scenario1_helpers)
       (parseAmong [undefined_source]) (printJS (NProgram undefined_source))
     = Finished None.
Proof. vm_compute. repeat split; reflexivity. Qed.

(** C8, on the failing input: the declarator visitor stores the text of
    [node.toString()], the driver passes it as a key, and the result map
    has an entry under it; both extracted call sites print as
    [f123(1, 2, 3, 4)]. *)
Theorem result_key_is_not_a_printed_call :
  let parse := parseAmong [scenario1_source] in
  let source := printJS (NProgram scenario1_source) in
  let actualCalls := extractActualFunctionCalls printJS defaults parse source in
  let testCode' :=
    generateFunctionTestCode printJS defaults parse
      (snd (extractFunctionDefinitions printJS defaults parse source))
      actualCalls source in
  map callExpression actualCalls = [js "[object Object]"; js "f123(1, 2, 3, 4)"]
  /\ map (fun c => path_toString printJS (path c)) actualCalls
     = [js "f123(1, 2, 3, 4)"; js "f123(1, 2, 3, 4)"]
  /\ executeTestCode (interpreterOf scenario1_helpers) testCode'
     = Finished (Some (<[js "[object Object]" := VNumber 10]>
                         {[js "f123(1, 2, 3, 4)" := VNumber 10]})).
Proof. vm_compute. repeat split; reflexivity. Qed.

(** The key is also read back from a string literal in which only the
    double quotes were escaped: an escape sequence of the printed call is
    interpreted, and the key differs from the printed call. *)
Example escaped_key_differs_from_printed_call :
  let parse := parseAmong [escaped_source] in
  let source := printJS (NProgram escaped_source) in
  let actualCalls := extractActualFunctionCalls printJS defaults parse source in
  let testCode' :=
    generateFunctionTestCode printJS defaults parse
      (snd (extractFunctionDefinitions printJS defaults parse source))
      actualCalls source in
  map callExpression actualCalls = [js "f7(" ++ quoted (js "a\nb") ++ js ")"]
  /\ executeTestCode (interpreterOf identity_helpers) testCode'
     = Finished (Some {[js "f7(" ++ quoted (js "a" ++ [10%N] ++ js "b") ++ js ")"
                        := VString (js "a" ++ [10%N] ++ js "b")]}).
Proof. vm_compute. repeat split; reflexivity. Qed.

End Departures.
